(** * femtoUniversePairTaskTrackTrackSpherHarMultKtExtended

    A shallow embedding of the pair task of
    PWGCF/FemtoUniverse/Tasks/femtoUniversePairTaskTrackTrackSpherHarMultKtExtended.cxx
    and the properties of its particle identification, pair loops, event
    mixing and covariance entry point.

    Numbers.  A [float] or [double] of the task is modelled by the real
    number it denotes: every comparison the task makes between finite values
    is the comparison of those reals (a [float] promoted to [double] keeps
    its value).  Not-a-number and the infinities are outside the model, and
    [TMath::Hypot] is the exact Euclidean norm.  [int] and [int8_t] values
    are integers of [Z]; where the task computes on [int], the result is
    reduced to 32 bits. *)

From Stdlib Require Import String.
From stdpp Require Import base list gmap.
From Stdlib Require Import ZArith Lia.
From Stdlib Require Import Reals Lra.

Local Open Scope R_scope.

(** ** Comparisons of the task as booleans *)

Definition Rltb (x y : R) : bool := if Rlt_dec x y then true else false.
Definition Rgtb (x y : R) : bool := Rltb y x.
Definition Rleb (x y : R) : bool := if Rle_dec x y then true else false.
Definition Rneqb (x y : R) : bool := if Req_dec_T x y then false else true.

(** [TMath::Hypot(x, y)] of ROOT, the Euclidean norm sqrt(x^2 + y^2). *)
Definition Hypot (x y : R) : R := sqrt (x * x + y * y).

(** ** Arithmetic on [int]

    A result is reduced to the 32-bit two's-complement range. *)

Definition int_wrap (z : Z) : Z :=
  ((z + 2147483648) mod 4294967296 - 2147483648)%Z.
Definition int_add (a b : Z) : Z := int_wrap (a + b).
Definition int_mul (a b : Z) : Z := int_wrap (a * b).

(** ** Configuration of the task (the [Configurable] members) *)

Record Config := {
  ConfNsigmaCombined : R;
  ConfNsigmaTPC : R;
  ConfTOFPtMin : R;
  ConfEtaMax : R;
  ConfPDGCodePartOne : Z;
  ConfPtLowPart1 : R;
  ConfPtHighPart1 : R;
  ConfChargePart1 : Z;
  ConfPDGCodePartTwo : Z;
  ConfPtLowPart2 : R;
  ConfPtHighPart2 : R;
  ConfChargePart2 : Z;
  ConfV0MLow : R;
  ConfV0MHigh : R;
  ConfNEventsMix : Z;
  ConfLMax : Z;
  ConfIsCPR : bool;
  cfgProcessPM : bool;
  cfgProcessPP : bool;
  cfgProcessMM : bool;
  doprocessSameEvent : bool;
  doprocessCov : bool;
  doprocessMixedEvent : bool
}.

(** The values the source gives to the configurables. *)
Definition defaultConfig : Config := {|
  ConfNsigmaCombined := 3.0;
  ConfNsigmaTPC := 3.0;
  ConfTOFPtMin := 0.5;
  ConfEtaMax := 0.8;
  ConfPDGCodePartOne := 211;
  ConfPtLowPart1 := 0.14;
  ConfPtHighPart1 := 1.5;
  ConfChargePart1 := 1;
  ConfPDGCodePartTwo := 211;
  ConfPtLowPart2 := 0.14;
  ConfPtHighPart2 := 1.5;
  ConfChargePart2 := -1;
  ConfV0MLow := 0.0;
  ConfV0MHigh := 25000.0;
  ConfNEventsMix := 5;
  ConfLMax := 2;
  ConfIsCPR := true;
  cfgProcessPM := false;
  cfgProcessPP := true;
  cfgProcessMM := true;
  doprocessSameEvent := true;
  doprocessCov := true;
  doprocessMixedEvent := true
|}.

(** ** Particle identification *)

Module PID.

(** PID for protons. *)
Definition IsProtonNSigma (cfg : Config) (mom nsigmaTPCPr nsigmaTOFPr : R) : bool :=
  if Rltb mom (ConfTOFPtMin cfg) then
    if Rltb (Rabs nsigmaTPCPr) (ConfNsigmaTPC cfg) then true else false
  else
    if Rltb (Hypot nsigmaTOFPr nsigmaTPCPr) (ConfNsigmaCombined cfg) then true else false.

Definition IsKaonNSigma (mom nsigmaTPCK nsigmaTOFK : R) : bool :=
  if Rltb mom 0.3 then
    if Rltb (Rabs nsigmaTPCK) 3.0 then true else false
  else if Rltb mom 0.45 then
    if Rltb (Rabs nsigmaTPCK) 2.0 then true else false
  else if Rltb mom 0.55 then
    if Rltb (Rabs nsigmaTPCK) 1.0 then true else false
  else if Rltb mom 1.5 then
    if Rltb (Rabs nsigmaTOFK) 3.0 && Rltb (Rabs nsigmaTPCK) 3.0 then true else false
  else if Rgtb mom 1.5 then
    if Rltb (Rabs nsigmaTOFK) 2.0 && Rltb (Rabs nsigmaTPCK) 3.0 then true else false
  else false.

Definition IsPionNSigma (cfg : Config) (mom nsigmaTPCPi nsigmaTOFPi : R) : bool :=
  if true then
    if Rltb mom (ConfTOFPtMin cfg) then
      if Rltb (Rabs nsigmaTPCPi) (ConfNsigmaTPC cfg) then true else false
    else
      if Rltb (Hypot nsigmaTOFPi nsigmaTPCPi) (ConfNsigmaCombined cfg) then true else false
  else false.

End PID.

(** The cut of the momentum band [mom] falls in, as [IsKaonNSigma] selects
    it; [None] where no band applies. *)
Definition kaonBand (mom : R) : option (option R * R) :=
  if Rlt_dec mom 0.3 then Some (None, 3.0)
  else if Rlt_dec mom 0.45 then Some (None, 2.0)
  else if Rlt_dec mom 0.55 then Some (None, 1.0)
  else if Rlt_dec mom 1.5 then Some (Some 3.0, 3.0)
  else if Rlt_dec 1.5 mom then Some (Some 2.0, 3.0)
  else None.

(** ** Data model: table rows *)

(** Species of [o2::track::PID] the task asks the track selection for. *)
Inductive PIDSpecies := Proton | Pion | Kaon.

(** A row of the joined particle table ([FDParticles] with [FDExtParticles]).
    [tpcNSigma] and [tofNSigma] hold the stored PID deviations of the track,
    one per species. *)
Record Particle := {
  partIndex : Z;
  fdCollisionId : Z;
  partType : Z;
  sign : Z;
  pt : R;
  eta : R;
  p : R;
  tpcNSigma : PIDSpecies -> R;
  tofNSigma : PIDSpecies -> R
}.

(** A row of the collision table ([FDCollisions]). *)
Record Collision := {
  globalIndex : Z;
  posZ : R;
  multNtr : Z;
  multV0M : R;
  magField : R
}.

Inductive EventType := same | mixed.

(** The six spherical-harmonics pair containers owned by the task. *)
Inductive Container :=
| sameEventMultCont | mixedEventMultCont
| sameEventMultContPP | mixedEventMultContPP
| sameEventMultContMM | mixedEventMultContMM.

(** What the task does to its collaborators: every call that fills a
    histogram or a container is recorded, in program order. *)
Inductive Effect :=
| hSECollisionBins_fill (bin : Z)
| hMECollisionBins_fill (bin : Z)
| eventHisto_fillQA (col : Collision)
| trackHistoPartOne_fillQA (part : Particle)
| trackHistoPartTwo_fillQA (part : Particle)
| fill_mult_NumDen (c : Container) (part1 part2 : Particle) (ev : EventType)
                   (maxl : Z) (multCol : Z) (kT : R)
| fill_mult_kT_Cov (c : Container) (ev : EventType) (JMax : Z).

(** ** The effects of the task as a monad

    A computation starts from the number of random generators constructed so
    far and yields the calls it made, the new number of generators and how
    it ended: normally, or in [LOGF(fatal, ...)], which ends the run. *)

Inductive Outcome (A : Type) :=
| Done (a : A)
| Fatal (msg : string) (arg : Z).
Arguments Done {A} a.
Arguments Fatal {A} msg arg.

Record Run (A : Type) := MkRun {
  trace : list Effect;
  gens : nat;
  outcome : Outcome A
}.
Arguments MkRun {A} trace gens outcome.
Arguments trace {A} r.
Arguments gens {A} r.
Arguments outcome {A} r.

Definition Eff (A : Type) : Type := nat -> Run A.

Definition eff_ret {A} (a : A) : Eff A := fun s => MkRun [] s (Done a).

Definition eff_bind {A B} (f : A -> Eff B) (m : Eff A) : Eff B :=
  fun s =>
    let r := m s in
    match outcome r with
    | Done a =>
        let r' := f a (gens r) in
        MkRun (trace r ++ trace r') (gens r') (outcome r')
    | Fatal msg arg => MkRun (trace r) (gens r) (Fatal msg arg)
    end.

#[global] Instance Eff_ret : MRet Eff := @eff_ret.
#[global] Instance Eff_bind : MBind Eff := @eff_bind.

Definition emit (e : Effect) : Eff unit := fun s => MkRun [e] s (Done tt).
Definition LOGF_fatal {A} (msg : string) (arg : Z) : Eff A :=
  fun s => MkRun [] s (Fatal msg arg).

(** A range-based [for] whose body may [continue]. *)
Fixpoint forM_ {A} (l : list A) (body : A -> Eff unit) : Eff unit :=
  match l with
  | [] => mret tt
  | x :: l' => body x ;; forM_ l' body
  end.

Definition when_ (b : bool) (m : Eff unit) : Eff unit :=
  if b then m else mret tt.

Definition is_fatal {A} (o : Outcome A) : bool :=
  match o with Fatal _ _ => true | Done _ => false end.

(** [new TRandom2(0)]: the seed 0 asks ROOT for a fresh seed, so every
    generator is a new one; the result is its number. *)
Definition new_TRandom2 : Eff nat := fun s => MkRun [] (S s) (Done s).

(** [randgen->Rndm()], the first draw of generator [randgen]. *)
Definition randgen_Rndm (Rndm : nat -> R) (randgen : nat) : Eff R :=
  mret (Rndm randgen).

(** ** Species dispatch *)

Module Dispatch.
Import PID.

Local Open Scope Z_scope.

Definition IsParticleNSigma (cfg : Config) (particle_number : Z)
    (mom nsigmaTPCPr nsigmaTOFPr nsigmaTPCPi nsigmaTOFPi nsigmaTPCK nsigmaTOFK : R)
  : Eff bool :=
  if particle_number =? 1 then
    let code := ConfPDGCodePartOne cfg in
    if (code =? 2212) || (code =? -2212) then
      mret (IsProtonNSigma cfg mom nsigmaTPCPr nsigmaTOFPr)
    else if (code =? 211) || (code =? -211) then
      mret (IsPionNSigma cfg mom nsigmaTPCPi nsigmaTOFPi)
    else if (code =? 321) || (code =? -321) then
      mret (IsKaonNSigma mom nsigmaTPCK nsigmaTOFK)
    else mret false
  else if particle_number =? 2 then
    let code := ConfPDGCodePartTwo cfg in
    if (code =? 2212) || (code =? -2212) then
      mret (IsProtonNSigma cfg mom nsigmaTPCPr nsigmaTOFPr)
    else if (code =? 211) || (code =? -211) then
      mret (IsPionNSigma cfg mom nsigmaTPCPi nsigmaTOFPi)
    else if (code =? 321) || (code =? -321) then
      mret (IsKaonNSigma mom nsigmaTPCK nsigmaTOFK)
    else mret false
  else
    LOGF_fatal "Wrong number of particle chosen! It should be 1 or 2. It is -> %d"%string
               particle_number.

(** [trackCuts.getNsigmaTPC(part, species)] and [getNsigmaTOF]. *)
Definition getNsigmaTPC (part : Particle) (species : PIDSpecies) : R :=
  tpcNSigma part species.
Definition getNsigmaTOF (part : Particle) (species : PIDSpecies) : R :=
  tofNSigma part species.

(** The call the pair loops make for a table row:
    [IsParticleNSigma((int8_t)n, part.p(), trackCuts.getNsigmaTPC(part, Proton), ...)]. *)
Definition gate (cfg : Config) (particle_number : Z) (part : Particle) : Eff bool :=
  IsParticleNSigma cfg particle_number (p part)
    (getNsigmaTPC part Proton) (getNsigmaTOF part Proton)
    (getNsigmaTPC part Pion) (getNsigmaTOF part Pion)
    (getNsigmaTPC part Kaon) (getNsigmaTOF part Kaon).

End Dispatch.

(** ** Pair combinatorics and event mixing of the framework *)

(** Modelled from the spec: [CombinationsFullIndexPolicy] of the analysis
    framework (Framework/ASoAHelpers.h is not among the sources).  Policy
    FullCross: every (i in A, j in B) pair, in the order of the two sets
    crossed by index. *)
Definition CombinationsFullIndexPolicy {A B} (setA : list A) (setB : list B)
  : list (A * B) :=
  flat_map (fun a => map (pair a) setB) setA.

(** Modelled from the spec: [CombinationsStrictlyUpperIndexPolicy] of the
    analysis framework (Framework/ASoAHelpers.h is not among the sources).
    Policy StrictUpper: every (i, j) with i < j, triangulated by index; the
    task passes the same set twice. *)
Fixpoint CombinationsStrictlyUpperIndexPolicy {A} (setA setB : list A)
  : list (A * A) :=
  match setA, setB with
  | a :: setA', _ :: setB' =>
      map (pair a) setB' ++ CombinationsStrictlyUpperIndexPolicy setA' setB'
  | _, _ => []
  end.

Module MixingPool.

(** Modelled from the spec: the mixing pool behind [soa::selfCombinations]
    (the block combination policy of Framework/ASoAHelpers.h is not among the
    sources).  Per bin an ordered buffer of at most [mixingDepth] events, in
    insertion order, oldest first. *)
Record MixingPool := {
  mixingDepth : nat;
  buffers : gmap Z (list Collision)
}.

Definition buffer (pool : MixingPool) (bin : Z) : list Collision :=
  default [] (buffers pool !! bin).

(** The last [n] entries of a buffer. *)
Definition mostRecent {A} (n : nat) (l : list A) : list A :=
  drop (length l - n) l.

(** Modelled from the spec: [windowedPairs(newEvent)], the pairs of the new
    event with at most [mixingDepth] most recently inserted events of its
    bin. *)
Definition windowedPairs (binOf : Collision -> Z) (pool : MixingPool)
    (newEvent : Collision) : list (Collision * Collision) :=
  map (pair newEvent) (mostRecent (mixingDepth pool) (buffer pool (binOf newEvent))).

(** Modelled from the spec: [insert(event)] appends to the buffer of the
    bin and, if the size exceeds [mixingDepth], evicts the entry inserted
    least recently. *)
Definition insert_event (binOf : Collision -> Z) (event : Collision)
    (pool : MixingPool) : MixingPool :=
  let b := buffer pool (binOf event) ++ [event] in
  {| mixingDepth := mixingDepth pool;
     buffers := <[binOf event := mostRecent (mixingDepth pool) b]> (buffers pool) |}.

Fixpoint mix (binOf : Collision -> Z) (pool : MixingPool) (cols : list Collision)
  : list (Collision * Collision) :=
  match cols with
  | [] => []
  | col :: cols' =>
      windowedPairs binOf pool col ++ mix binOf (insert_event binOf col pool) cols'
  end.

(** Modelled from the spec: [soa::selfCombinations(binningPolicy,
    categoryNeighbours, outsider, cols, cols)].  Every event, in table
    order, is mixed against the pool and then inserted; an event whose bin is
    [outsider] takes no part. *)
Definition selfCombinations (binOf : Collision -> Z) (categoryNeighbours : Z)
    (outsider : Z) (cols : list Collision) : list (Collision * Collision) :=
  mix binOf {| mixingDepth := Z.to_nat categoryNeighbours; buffers := ∅ |}
      (List.filter (fun col => negb (binOf col =? outsider)%Z) cols).

End MixingPool.

(** ** The task *)

(** Collaborators of the task that live in other files: the particle-type
    code of a track, the pair filters ([pairCloseRejection], [pairCleaner]),
    the pair kinematics ([FemtoUniverseMath::getkT]), the PDG mass table, the
    collision binning ([colBinning.getBin]) and the stream of ROOT's random
    draws, one per generator. *)
Record Environment := {
  kTrack : Z;
  isClosePair : Particle -> Particle -> list Particle -> R -> EventType -> bool;
  isCleanPair : Particle -> Particle -> list Particle -> bool;
  getkT : Particle -> R -> Particle -> R -> R;
  pdg_Mass : Z -> R;
  colBinning_getBin : R -> Z -> Z;
  Rndm : nat -> R
}.

Section Task.
Import Dispatch.

Variable env : Environment.
Variable cfg : Config.

(** [mass1] and [mass2] as [init] sets them. *)
Definition mass1 : R := pdg_Mass env (ConfPDGCodePartOne cfg).
Definition mass2 : R := pdg_Mass env (ConfPDGCodePartTwo cfg).

(** [Filter trackAdditionalfilter] and [Filter collV0Mfilter]. *)
Definition trackAdditionalfilter (part : Particle) : bool :=
  Rltb (Rabs (eta part)) (ConfEtaMax cfg).
Definition collV0Mfilter (col : Collision) : bool :=
  Rgtb (multV0M col) (ConfV0MLow cfg) && Rltb (multV0M col) (ConfV0MHigh cfg).

(** [Partition partsOne] and [Partition partsTwo]. *)
Definition partsOne (parts : list Particle) : list Particle :=
  List.filter (fun part =>
    (partType part =? kTrack env)%Z && (sign part =? ConfChargePart1 cfg)%Z
    && Rltb (pt part) (ConfPtHighPart1 cfg) && Rgtb (pt part) (ConfPtLowPart1 cfg)) parts.
Definition partsTwo (parts : list Particle) : list Particle :=
  List.filter (fun part =>
    (partType part =? kTrack env)%Z && (sign part =? ConfChargePart2 cfg)%Z
    && Rltb (pt part) (ConfPtHighPart2 cfg) && Rgtb (pt part) (ConfPtLowPart2 cfg)) parts.

(** [partition->sliceByCached(fdCollisionId, index, cache)]. *)
Definition sliceByCached (partition : list Particle) (index : Z) : list Particle :=
  List.filter (fun part => (fdCollisionId part =? index)%Z) partition.

Definition fillCollision (col : Collision) : Eff unit :=
  emit (hSECollisionBins_fill (colBinning_getBin env (posZ col) (multNtr col))) ;;
  emit (eventHisto_fillQA col).

(** Body of the loop over non-identical pairs in [doSameEvent]. *)
Definition doSameEvent_pairPM (parts : list Particle) (magFieldTesla : R)
    (multCol : Z) (pr : Particle * Particle) : Eff unit :=
  let '(p1, p2) := pr in
  ok1 ← gate cfg 1 p1;
  if negb ok1 then mret tt else
  ok2 ← gate cfg 2 p2;
  if negb ok2 then mret tt else
  if ConfIsCPR cfg && isClosePair env p1 p2 parts magFieldTesla same then mret tt else
  if negb (isCleanPair env p1 p2 parts) then mret tt else
  let kT := getkT env p1 mass1 p2 mass2 in
  emit (fill_mult_NumDen sameEventMultCont p1 p2 same 2 multCol kT).

(** Body of the loop over identical pairs in [doSameEvent]. *)
Definition doSameEvent_pairIden (parts : list Particle) (magFieldTesla : R)
    (multCol ContType : Z) (pr : Particle * Particle) : Eff unit :=
  let '(p1, p2) := pr in
  ok1 ← gate cfg 2 p1;
  if negb ok1 then mret tt else
  ok2 ← gate cfg 2 p2;
  if negb ok2 then mret tt else
  if ConfIsCPR cfg && isClosePair env p1 p2 parts magFieldTesla same then mret tt else
  if negb (isCleanPair env p1 p2 parts) then mret tt else
  let kT := getkT env p1 mass1 p2 mass2 in
  randgen ← new_TRandom2;
  if (ContType =? 2)%Z then
    rand ← randgen_Rndm (Rndm env) randgen;
    if Rgtb rand 0.5 then
      emit (fill_mult_NumDen sameEventMultContPP p1 p2 same 2 multCol kT)
    else if Rleb rand 0.5 then
      emit (fill_mult_NumDen sameEventMultContPP p2 p1 same 2 multCol kT)
    else mret tt
  else if (ContType =? 3)%Z then
    rand ← randgen_Rndm (Rndm env) randgen;
    if Rgtb rand 0.5 then
      emit (fill_mult_NumDen sameEventMultContMM p1 p2 same 2 multCol kT)
    else if Rleb rand 0.5 then
      emit (fill_mult_NumDen sameEventMultContMM p2 p1 same 2 multCol kT)
    else mret tt
  else mret tt.

(** This function processes the same event and takes care of all the
    histogramming. *)
Definition doSameEvent (groupPartsOne groupPartsTwo parts : list Particle)
    (magFieldTesla : R) (multCol ContType : Z) (fillQA : bool) : Eff unit :=
  when_ (((ContType =? 1)%Z || (ContType =? 2)%Z) && fillQA)
    (forM_ groupPartsOne (fun part =>
       ok ← gate cfg 1 part;
       if negb ok then mret tt else emit (trackHistoPartOne_fillQA part))) ;;
  when_ (((ContType =? 1)%Z || (ContType =? 3)%Z) && fillQA)
    (forM_ groupPartsTwo (fun part =>
       ok ← gate cfg 2 part;
       if negb ok then mret tt else emit (trackHistoPartTwo_fillQA part))) ;;
  if (ContType =? 1)%Z then
    forM_ (CombinationsFullIndexPolicy groupPartsOne groupPartsTwo)
          (doSameEvent_pairPM parts magFieldTesla multCol)
  else
    forM_ (CombinationsStrictlyUpperIndexPolicy groupPartsOne groupPartsOne)
          (doSameEvent_pairIden parts magFieldTesla multCol ContType).

Definition processSameEvent (col : Collision) (parts : list Particle) : Eff unit :=
  fillCollision col ;;
  let thegroupPartsOne := sliceByCached (partsOne parts) (globalIndex col) in
  let thegroupPartsTwo := sliceByCached (partsTwo parts) (globalIndex col) in
  let fillQA := true in
  when_ (cfgProcessPM cfg)
    (doSameEvent thegroupPartsOne thegroupPartsTwo parts (magField col) (multNtr col) 1 fillQA) ;;
  when_ (cfgProcessPP cfg)
    (doSameEvent thegroupPartsOne thegroupPartsOne parts (magField col) (multNtr col) 2 fillQA) ;;
  when_ (cfgProcessMM cfg)
    (doSameEvent thegroupPartsTwo thegroupPartsTwo parts (magField col) (multNtr col) 3 fillQA).

(** Body of the pair loop of [doMixedEvent]. *)
Definition doMixedEvent_pair (parts : list Particle) (magFieldTesla : R)
    (multCol ContType : Z) (pr : Particle * Particle) : Eff unit :=
  let '(p1, p2) := pr in
  ok1 ← gate cfg 2 p1;
  if negb ok1 then mret tt else
  ok2 ← gate cfg 2 p2;
  if negb ok2 then mret tt else
  if ConfIsCPR cfg && isClosePair env p1 p2 parts magFieldTesla mixed then mret tt else
  let kT := getkT env p1 mass1 p2 mass2 in
  if (ContType =? 1)%Z then
    emit (fill_mult_NumDen mixedEventMultCont p1 p2 mixed 2 multCol kT)
  else if (ContType =? 2)%Z then
    emit (fill_mult_NumDen mixedEventMultContPP p1 p2 mixed 2 multCol kT)
  else if (ContType =? 3)%Z then
    emit (fill_mult_NumDen mixedEventMultContMM p1 p2 mixed 2 multCol kT)
  else mret tt.

(** This function processes the mixed event. *)
Definition doMixedEvent (groupPartsOne groupPartsTwo parts : list Particle)
    (magFieldTesla : R) (multCol ContType : Z) : Eff unit :=
  forM_ (CombinationsFullIndexPolicy groupPartsOne groupPartsTwo)
        (doMixedEvent_pair parts magFieldTesla multCol ContType).

(** Body of the loop over collision pairs of [processMixedEvent]. *)
Definition processMixedEvent_pair (parts : list Particle)
    (pr : Collision * Collision) : Eff unit :=
  let '(collision1, collision2) := pr in
  let multiplicityCol := multNtr collision1 in
  emit (hMECollisionBins_fill (colBinning_getBin env (posZ collision1) multiplicityCol)) ;;
  let magFieldTesla1 := magField collision1 in
  let magFieldTesla2 := magField collision2 in
  if Rneqb magFieldTesla1 magFieldTesla2 then mret tt else
  when_ (cfgProcessPM cfg)
    (let groupPartsOne := sliceByCached (partsOne parts) (globalIndex collision1) in
     let groupPartsTwo := sliceByCached (partsTwo parts) (globalIndex collision2) in
     doMixedEvent groupPartsOne groupPartsTwo parts magFieldTesla1 multiplicityCol 1) ;;
  when_ (cfgProcessPP cfg)
    (let groupPartsOne := sliceByCached (partsOne parts) (globalIndex collision1) in
     let groupPartsTwo := sliceByCached (partsOne parts) (globalIndex collision2) in
     doMixedEvent groupPartsOne groupPartsTwo parts magFieldTesla1 multiplicityCol 2) ;;
  when_ (cfgProcessMM cfg)
    (let groupPartsOne := sliceByCached (partsTwo parts) (globalIndex collision1) in
     let groupPartsTwo := sliceByCached (partsTwo parts) (globalIndex collision2) in
     doMixedEvent groupPartsOne groupPartsTwo parts magFieldTesla1 multiplicityCol 3).

(** The collision pairs [processMixedEvent] loops over:
    [soa::selfCombinations(colBinning, 5, -1, cols, cols)]. *)
Definition mixedEventPairs (cols : list Collision) : list (Collision * Collision) :=
  MixingPool.selfCombinations
    (fun col => colBinning_getBin env (posZ col) (multNtr col)) 5 (-1) cols.

Definition processMixedEvent (cols : list Collision) (parts : list Particle) : Eff unit :=
  forM_ (mixedEventPairs cols) (processMixedEvent_pair parts).

(** Process function to fill covariance histograms. *)
Definition processCov (col : Collision) (parts : list Particle) : Eff unit :=
  let JMax := int_mul (int_add (ConfLMax cfg) 1) (int_add (ConfLMax cfg) 1) in
  if cfgProcessMM cfg then
    emit (fill_mult_kT_Cov sameEventMultContMM same JMax) ;;
    emit (fill_mult_kT_Cov mixedEventMultContMM mixed JMax)
  else if cfgProcessPP cfg then
    emit (fill_mult_kT_Cov sameEventMultContPP same JMax) ;;
    emit (fill_mult_kT_Cov mixedEventMultContPP mixed JMax)
  else if cfgProcessPM cfg then
    emit (fill_mult_kT_Cov sameEventMultCont same JMax) ;;
    emit (fill_mult_kT_Cov mixedEventMultCont mixed JMax)
  else mret tt.

(** One pass of the framework over a data frame.  The process functions
    are bound by [PROCESS_SWITCH] in the order [processSameEvent] (line
    558), [processCov] (line 679), [processMixedEvent] (line 681), and an
    enabled one is run in that order.  One that subscribes to a collision
    iterator ([soa::Filtered<FDCollisions>::iterator& col], as
    [processSameEvent] and [processCov] do) is called for every row of the
    filtered collision table, with the particles grouped by that collision;
    one that subscribes to the table ([soa::Filtered<FDCollisions>& cols],
    as [processMixedEvent] does) is called once.  The Monte Carlo process
    functions, switched off as declared, are left out. *)
Definition runDataFrame (allCols : list Collision) (allParts : list Particle)
  : Eff unit :=
  let cols := List.filter collV0Mfilter allCols in
  let parts := List.filter trackAdditionalfilter allParts in
  let grouped := fun col => sliceByCached parts (globalIndex col) in
  when_ (doprocessSameEvent cfg)
    (forM_ cols (fun col => processSameEvent col (grouped col))) ;;
  when_ (doprocessCov cfg)
    (forM_ cols (fun col => processCov col (grouped col))) ;;
  when_ (doprocessMixedEvent cfg) (processMixedEvent cols parts).

End Task.


(** ** Reading a trace *)

Definition isCov (e : Effect) : bool :=
  match e with fill_mult_kT_Cov _ _ _ => true | _ => false end.

Definition isCovOf (c : Container) (e : Effect) : bool :=
  match e, c with
  | fill_mult_kT_Cov sameEventMultCont _ _, sameEventMultCont
  | fill_mult_kT_Cov mixedEventMultCont _ _, mixedEventMultCont
  | fill_mult_kT_Cov sameEventMultContPP _ _, sameEventMultContPP
  | fill_mult_kT_Cov mixedEventMultContPP _ _, mixedEventMultContPP
  | fill_mult_kT_Cov sameEventMultContMM _ _, sameEventMultContMM
  | fill_mult_kT_Cov mixedEventMultContMM _ _, mixedEventMultContMM => true
  | _, _ => false
  end.

Definition isNumDen (e : Effect) : bool :=
  match e with fill_mult_NumDen _ _ _ _ _ _ _ => true | _ => false end.

(** Number of calls of the trace that satisfy [f]. *)
Definition calls (f : Effect -> bool) (t : list Effect) : nat :=
  length (List.filter f t).

(** The covariance calls one invocation of [processCov] makes. *)
Definition covOfChannel (cfg : Config) : list Effect :=
  let JMax := int_mul (int_add (ConfLMax cfg) 1) (int_add (ConfLMax cfg) 1) in
  if cfgProcessMM cfg then
    [fill_mult_kT_Cov sameEventMultContMM same JMax;
     fill_mult_kT_Cov mixedEventMultContMM mixed JMax]
  else if cfgProcessPP cfg then
    [fill_mult_kT_Cov sameEventMultContPP same JMax;
     fill_mult_kT_Cov mixedEventMultContPP mixed JMax]
  else if cfgProcessPM cfg then
    [fill_mult_kT_Cov sameEventMultCont same JMax;
     fill_mult_kT_Cov mixedEventMultCont mixed JMax]
  else [].

(** Species codes the dispatch of [IsParticleNSigma] knows. *)
Definition supportedSpecies (code : Z) : bool :=
  ((code =? 2212) || (code =? -2212) || (code =? 211) || (code =? -211)
   || (code =? 321) || (code =? -321))%Z.

(** The species code configured for a particle role. *)
Definition speciesOfRole (cfg : Config) (particle_number : Z) : Z :=
  if (particle_number =? 1)%Z then ConfPDGCodePartOne cfg else ConfPDGCodePartTwo cfg.

(** ** Configurations and inputs of the scenarios *)

Definition setPDGCodes (one two : Z) (cfg : Config) : Config := {|
  ConfNsigmaCombined := ConfNsigmaCombined cfg;
  ConfNsigmaTPC := ConfNsigmaTPC cfg;
  ConfTOFPtMin := ConfTOFPtMin cfg;
  ConfEtaMax := ConfEtaMax cfg;
  ConfPDGCodePartOne := one;
  ConfPtLowPart1 := ConfPtLowPart1 cfg;
  ConfPtHighPart1 := ConfPtHighPart1 cfg;
  ConfChargePart1 := ConfChargePart1 cfg;
  ConfPDGCodePartTwo := two;
  ConfPtLowPart2 := ConfPtLowPart2 cfg;
  ConfPtHighPart2 := ConfPtHighPart2 cfg;
  ConfChargePart2 := ConfChargePart2 cfg;
  ConfV0MLow := ConfV0MLow cfg;
  ConfV0MHigh := ConfV0MHigh cfg;
  ConfNEventsMix := ConfNEventsMix cfg;
  ConfLMax := ConfLMax cfg;
  ConfIsCPR := ConfIsCPR cfg;
  cfgProcessPM := cfgProcessPM cfg;
  cfgProcessPP := cfgProcessPP cfg;
  cfgProcessMM := cfgProcessMM cfg;
  doprocessSameEvent := doprocessSameEvent cfg;
  doprocessCov := doprocessCov cfg;
  doprocessMixedEvent := doprocessMixedEvent cfg
|}.

Definition setNEventsMix (n : Z) (cfg : Config) : Config := {|
  ConfNsigmaCombined := ConfNsigmaCombined cfg;
  ConfNsigmaTPC := ConfNsigmaTPC cfg;
  ConfTOFPtMin := ConfTOFPtMin cfg;
  ConfEtaMax := ConfEtaMax cfg;
  ConfPDGCodePartOne := ConfPDGCodePartOne cfg;
  ConfPtLowPart1 := ConfPtLowPart1 cfg;
  ConfPtHighPart1 := ConfPtHighPart1 cfg;
  ConfChargePart1 := ConfChargePart1 cfg;
  ConfPDGCodePartTwo := ConfPDGCodePartTwo cfg;
  ConfPtLowPart2 := ConfPtLowPart2 cfg;
  ConfPtHighPart2 := ConfPtHighPart2 cfg;
  ConfChargePart2 := ConfChargePart2 cfg;
  ConfV0MLow := ConfV0MLow cfg;
  ConfV0MHigh := ConfV0MHigh cfg;
  ConfNEventsMix := n;
  ConfLMax := ConfLMax cfg;
  ConfIsCPR := ConfIsCPR cfg;
  cfgProcessPM := cfgProcessPM cfg;
  cfgProcessPP := cfgProcessPP cfg;
  cfgProcessMM := cfgProcessMM cfg;
  doprocessSameEvent := doprocessSameEvent cfg;
  doprocessCov := doprocessCov cfg;
  doprocessMixedEvent := doprocessMixedEvent cfg
|}.

Definition setChannels (pm pp mm : bool) (cfg : Config) : Config := {|
  ConfNsigmaCombined := ConfNsigmaCombined cfg;
  ConfNsigmaTPC := ConfNsigmaTPC cfg;
  ConfTOFPtMin := ConfTOFPtMin cfg;
  ConfEtaMax := ConfEtaMax cfg;
  ConfPDGCodePartOne := ConfPDGCodePartOne cfg;
  ConfPtLowPart1 := ConfPtLowPart1 cfg;
  ConfPtHighPart1 := ConfPtHighPart1 cfg;
  ConfChargePart1 := ConfChargePart1 cfg;
  ConfPDGCodePartTwo := ConfPDGCodePartTwo cfg;
  ConfPtLowPart2 := ConfPtLowPart2 cfg;
  ConfPtHighPart2 := ConfPtHighPart2 cfg;
  ConfChargePart2 := ConfChargePart2 cfg;
  ConfV0MLow := ConfV0MLow cfg;
  ConfV0MHigh := ConfV0MHigh cfg;
  ConfNEventsMix := ConfNEventsMix cfg;
  ConfLMax := ConfLMax cfg;
  ConfIsCPR := ConfIsCPR cfg;
  cfgProcessPM := pm;
  cfgProcessPP := pp;
  cfgProcessMM := mm;
  doprocessSameEvent := doprocessSameEvent cfg;
  doprocessCov := doprocessCov cfg;
  doprocessMixedEvent := doprocessMixedEvent cfg
|}.

(** Collaborators that accept every pair, bin collisions by multiplicity
    and draw 0.25 from every generator. *)
Definition exampleEnv : Environment := {|
  kTrack := 0;
  isClosePair := fun _ _ _ _ _ => false;
  isCleanPair := fun _ _ _ => true;
  getkT := fun _ _ _ _ => 0.2;
  pdg_Mass := fun _ => 0.14;
  colBinning_getBin := fun _ mult => mult;
  Rndm := fun _ => 0.25
|}.

(** A track that is a clear pion: within 0.5 sigma of the pion hypothesis,
    10 sigma away from the others. *)
Definition pionTrack : Particle := {|
  partIndex := 0; fdCollisionId := 0; partType := 0; sign := 1;
  pt := 0.4; eta := 0.1; p := 0.4;
  tpcNSigma := fun species => match species with Pion => 0.5 | _ => 10 end;
  tofNSigma := fun species => match species with Pion => 0.5 | _ => 10 end
|}.

(** A track that is a clear kaon. *)
Definition kaonTrack : Particle := {|
  partIndex := 1; fdCollisionId := 1; partType := 0; sign := -1;
  pt := 0.4; eta := 0.1; p := 0.4;
  tpcNSigma := fun species => match species with Kaon => 0.5 | _ => 10 end;
  tofNSigma := fun species => match species with Kaon => 0.5 | _ => 10 end
|}.

(** Opposite-sign pion-kaon analysis. *)
Definition cfgPionKaon : Config :=
  setChannels true false false (setPDGCodes 211 321 defaultConfig).

(** A configuration whose first species code is the electron's. *)
Definition cfgElectron : Config := setPDGCodes 11 211 defaultConfig.

(** Collisions of one mixing bin (multiplicity 10) and one field polarity. *)
Definition collisionOf (index : Z) (field : R) : Collision := {|
  globalIndex := index; posZ := 0; multNtr := 10; multV0M := 100; magField := field
|}.

(** ** Reading a sequence of index pairs *)

(** How often the index pair (i, j) occurs in a sequence of pairs. *)
Definition occurrences (i j : nat) (pairs : list (nat * nat)) : nat :=
  length (List.filter (fun ij => Nat.eqb (fst ij) i && Nat.eqb (snd ij) j) pairs).

(** The rows of a table, each with its index. *)
Definition indexed {A} (rows : list A) : list (nat * A) :=
  combine (seq 0 (length rows)) rows.

Definition both {A B} (f : A -> B) (pr : A * A) : B * B := (f (fst pr), f (snd pr)).
Definition each {A B C D} (f : A -> C) (g : B -> D) (pr : A * B) : C * D :=
  (f (fst pr), g (snd pr)).

(** ** The mixing window, read off the sequence of collisions *)

(** Every collision of [cols] paired with the [depth] collisions that came
    last before it, [prev] being those that came before [cols]. *)
Fixpoint windows (depth : nat) (prev cols : list Collision)
  : list (Collision * Collision) :=
  match cols with
  | [] => []
  | col :: cols' =>
      map (pair col) (MixingPool.mostRecent depth prev)
      ++ windows depth (prev ++ [col]) cols'
  end.

(** Four collisions of one bin and one field polarity. *)
Definition E1 : Collision := collisionOf 1 0.5.
Definition E2 : Collision := collisionOf 2 0.5.
Definition E3 : Collision := collisionOf 3 0.5.
Definition E4 : Collision := collisionOf 4 0.5.

(** The default configuration with a mixing depth of 2. *)
Definition cfgDepth2 : Config := setNEventsMix 2 defaultConfig.

(** ** Computations that stay away from some calls *)

(** A computation that never makes a call selected by [f] and never ends
    the run. *)
Definition avoids {A} (f : Effect -> bool) (m : Eff A) : Prop :=
  forall s, calls f (trace (m s)) = 0%nat /\ is_fatal (outcome (m s)) = false.

(** ** The verdicts of the same-sign pair loop *)

(** The answer of the species dispatch for a role the task uses. *)
Definition admits (cfg : Config) (particle_number : Z) (part : Particle) : bool :=
  match outcome (Dispatch.gate cfg particle_number part 0%nat) with
  | Done ok => ok
  | Fatal _ _ => false
  end.

(** A pair that passes the gates of the same-sign loop of [doSameEvent]. *)
Definition passesIden (env : Environment) (cfg : Config) (parts : list Particle)
    (magFieldTesla : R) (pr : Particle * Particle) : bool :=
  admits cfg 2 (fst pr) && admits cfg 2 (snd pr)
  && negb (ConfIsCPR cfg && isClosePair env (fst pr) (snd pr) parts magFieldTesla same)
  && isCleanPair env (fst pr) (snd pr) parts.

(** * The rest of the task *)

(** ** The Monte Carlo process functions *)

Section MonteCarlo.

Variable env : Environment.
Variable cfg : Config.

(** Process function to call doSameEvent with Monte Carlo: it fills the
    collision QA and slices the two partitions, and ends there. *)
Definition processSameEventMC (col : Collision) (parts : list Particle) : Eff unit :=
  fillCollision env col ;;
  let thegroupPartsOne := sliceByCached (partsOne env cfg parts) (globalIndex col) in
  let thegroupPartsTwo := sliceByCached (partsTwo env cfg parts) (globalIndex col) in
  mret tt.

(** Body of the loop over collision pairs of [processMixedEventMC]. *)
Definition processMixedEventMC_pair (pr : Collision * Collision) : Eff unit :=
  let '(collision1, collision2) := pr in
  let multiplicityCol := multNtr collision1 in
  emit (hMECollisionBins_fill
          (colBinning_getBin env (posZ collision1) multiplicityCol)) ;;
  let magFieldTesla1 := magField collision1 in
  let magFieldTesla2 := magField collision2 in
  if Rneqb magFieldTesla1 magFieldTesla2 then mret tt else mret tt.

Definition processMixedEventMC (cols : list Collision) (parts : list Particle)
  : Eff unit :=
  forM_ (MixingPool.selfCombinations
           (fun col => colBinning_getBin env (posZ col) (multNtr col)) 5 (-1) cols)
        processMixedEventMC_pair.

End MonteCarlo.

(** ** Initialisation *)

(** The histogram registries of the task. *)
Inductive Registry :=
| qaRegistry | resultRegistry
| resultRegistryPM | resultRegistryPP | resultRegistryMM
| MixQaRegistry
| SameMultRegistryPM | MixedMultRegistryPM
| SameMultRegistryPP | MixedMultRegistryPP
| SameMultRegistryMM | MixedMultRegistryMM.

(** The six k*-only containers ([FemtoUniverseSHContainer]) of the task. *)
Inductive KstarContainer :=
| sameEventCont | mixedEventCont
| sameEventContPP | mixedEventContPP
| sameEventContMM | mixedEventContMM.

(** The configurables [init] reads next to those of [Config]. *)
Record InitOptions := {
  ConfIsMC : bool;
  cfgProcessKtMt3DCF : bool;
  ConfCPRPlotPerRadii : bool;
  ConfCPRdeltaPhiCutMax : R;
  ConfCPRdeltaPhiCutMin : R;
  ConfCPRdeltaEtaCutMax : R;
  ConfCPRdeltaEtaCutMin : R;
  ConfCPRChosenRadii : R;
  ConfPIDPartOne : Z;
  ConfPIDPartTwo : Z;
  ConfTrkPIDnSigmaMax : list R
}.

(** The values the source gives to these configurables. *)
Definition defaultInitOptions : InitOptions := {|
  ConfIsMC := false;
  cfgProcessKtMt3DCF := false;
  ConfCPRPlotPerRadii := false;
  ConfCPRdeltaPhiCutMax := 0.0;
  ConfCPRdeltaPhiCutMin := 0.0;
  ConfCPRdeltaEtaCutMax := 0.0;
  ConfCPRdeltaEtaCutMin := 0.0;
  ConfCPRChosenRadii := 0.80;
  ConfPIDPartOne := 2;
  ConfPIDPartTwo := 2;
  ConfTrkPIDnSigmaMax := [4; 3; 2]
|}.

(** The calls [init] makes, in program order.  The axis specifications
    passed along ([ConfkstarBins], [ConfMultKstarBins], ...) are left out. *)
Inductive InitCall :=
| eventHisto_init (registry : Registry)
| trackHistoPartOne_init (registry : Registry) (isMC : bool) (pdg : Z) (isDebug : bool)
| trackHistoPartTwo_init (registry : Registry) (isMC : bool) (pdg : Z) (isDebug : bool)
| MixQaRegistry_add (name : string)
| KstarContainer_init (c : KstarContainer) (registry : Registry) (lmax : Z)
| KstarContainer_setPDGCodes (c : KstarContainer) (one two : Z)
| MultContainer_init (c : Container) (registry : Registry) (lmax : Z)
| pairCleaner_init (registry : Registry)
| pairCloseRejection_init (registry registryQA : Registry)
    (deltaPhiMin deltaPhiMax deltaEtaMin deltaEtaMax radii : R) (plotPerRadii : bool).

(** The members [init] sets. *)
Record Initialised := {
  initCalls : list InitCall;
  init_mass1 : R;
  init_mass2 : R;
  vPIDPartOne : Z;
  vPIDPartTwo : Z;
  kNsigma : list R
}.

Definition init (env : Environment) (cfg : Config) (opts : InitOptions) : Initialised := {|
  initCalls :=
    [eventHisto_init qaRegistry;
     trackHistoPartOne_init qaRegistry (ConfIsMC opts) (ConfPDGCodePartOne cfg) true;
     trackHistoPartTwo_init qaRegistry (ConfIsMC opts) (ConfPDGCodePartTwo cfg) true;
     MixQaRegistry_add "MixingQA/hSECollisionBins";
     MixQaRegistry_add "MixingQA/hMECollisionBins"]
    ++ (if cfgProcessPM cfg then
          if negb (cfgProcessKtMt3DCF opts) then
            [KstarContainer_init sameEventCont resultRegistryPM (ConfLMax cfg);
             KstarContainer_init mixedEventCont resultRegistryPM (ConfLMax cfg);
             KstarContainer_setPDGCodes sameEventCont
               (ConfPDGCodePartOne cfg) (ConfPDGCodePartTwo cfg);
             KstarContainer_setPDGCodes mixedEventCont
               (ConfPDGCodePartOne cfg) (ConfPDGCodePartTwo cfg)]
          else
            [MultContainer_init sameEventMultCont SameMultRegistryPM (ConfLMax cfg);
             MultContainer_init mixedEventMultCont MixedMultRegistryPM (ConfLMax cfg)]
        else [])
    ++ (if cfgProcessPP cfg then
          if negb (cfgProcessKtMt3DCF opts) then
            [KstarContainer_init sameEventContPP resultRegistryPP (ConfLMax cfg);
             KstarContainer_init mixedEventContPP resultRegistryPP (ConfLMax cfg);
             KstarContainer_setPDGCodes sameEventContPP
               (ConfPDGCodePartOne cfg) (ConfPDGCodePartTwo cfg);
             KstarContainer_setPDGCodes mixedEventContPP
               (ConfPDGCodePartOne cfg) (ConfPDGCodePartTwo cfg)]
          else
            [MultContainer_init sameEventMultContPP SameMultRegistryPP (ConfLMax cfg);
             MultContainer_init mixedEventMultContPP MixedMultRegistryPP (ConfLMax cfg)]
        else [])
    ++ (if cfgProcessMM cfg then
          if negb (cfgProcessKtMt3DCF opts) then
            [KstarContainer_init sameEventContMM resultRegistryMM (ConfLMax cfg);
             KstarContainer_init mixedEventContMM resultRegistryMM (ConfLMax cfg);
             KstarContainer_setPDGCodes sameEventContMM
               (ConfPDGCodePartOne cfg) (ConfPDGCodePartTwo cfg);
             KstarContainer_setPDGCodes mixedEventContMM
               (ConfPDGCodePartOne cfg) (ConfPDGCodePartTwo cfg)]
          else
            [MultContainer_init sameEventMultContMM SameMultRegistryMM (ConfLMax cfg);
             MultContainer_init mixedEventMultContMM MixedMultRegistryMM (ConfLMax cfg)]
        else [])
    ++ [pairCleaner_init qaRegistry]
    ++ (if ConfIsCPR cfg then
          [pairCloseRejection_init resultRegistry qaRegistry
             (ConfCPRdeltaPhiCutMin opts) (ConfCPRdeltaPhiCutMax opts)
             (ConfCPRdeltaEtaCutMin opts) (ConfCPRdeltaEtaCutMax opts)
             (ConfCPRChosenRadii opts) (ConfCPRPlotPerRadii opts)]
        else []);
  init_mass1 := pdg_Mass env (ConfPDGCodePartOne cfg);
  init_mass2 := pdg_Mass env (ConfPDGCodePartTwo cfg);
  vPIDPartOne := ConfPIDPartOne opts;
  vPIDPartTwo := ConfPIDPartTwo opts;
  kNsigma := ConfTrkPIDnSigmaMax opts
|}.

(** ** Reading the pair loops *)

(** The selections of [Partition partsOne] and [Partition partsTwo]. *)
Definition isPartOne (env : Environment) (cfg : Config) (part : Particle) : bool :=
  (partType part =? kTrack env)%Z && (sign part =? ConfChargePart1 cfg)%Z
  && Rltb (pt part) (ConfPtHighPart1 cfg) && Rgtb (pt part) (ConfPtLowPart1 cfg).
Definition isPartTwo (env : Environment) (cfg : Config) (part : Particle) : bool :=
  (partType part =? kTrack env)%Z && (sign part =? ConfChargePart2 cfg)%Z
  && Rltb (pt part) (ConfPtHighPart2 cfg) && Rgtb (pt part) (ConfPtLowPart2 cfg).

(** A pair that passes the gates of the opposite-sign loop of [doSameEvent]. *)
Definition passesPM (env : Environment) (cfg : Config) (parts : list Particle)
    (magFieldTesla : R) (pr : Particle * Particle) : bool :=
  admits cfg 1 (fst pr) && admits cfg 2 (snd pr)
  && negb (ConfIsCPR cfg && isClosePair env (fst pr) (snd pr) parts magFieldTesla same)
  && isCleanPair env (fst pr) (snd pr) parts.

(** A pair that passes the gates of the loop of [doMixedEvent]. *)
Definition passesMixed (env : Environment) (cfg : Config) (parts : list Particle)
    (magFieldTesla : R) (pr : Particle * Particle) : bool :=
  admits cfg 2 (fst pr) && admits cfg 2 (snd pr)
  && negb (ConfIsCPR cfg && isClosePair env (fst pr) (snd pr) parts magFieldTesla mixed).

Definition isQAOne (e : Effect) : bool :=
  match e with trackHistoPartOne_fillQA _ => true | _ => false end.
Definition isQATwo (e : Effect) : bool :=
  match e with trackHistoPartTwo_fillQA _ => true | _ => false end.
Definition isMixingQA (e : Effect) : bool :=
  match e with hMECollisionBins_fill _ => true | _ => false end.

(** A computation that ends normally and makes [n] calls selected by [sel],
    from every state. *)
Definition counts (sel : Effect -> bool) (m : Eff unit) (n : nat) : Prop :=
  forall s, outcome (m s) = Done tt /\ calls sel (trace (m s)) = n.

(** A computation all of whose calls satisfy [ok]. *)
Definition emitsOnly {A} (ok : Effect -> bool) (m : Eff A) : Prop :=
  forall s, Forall (fun e => ok e = true) (trace (m s)).

(** The channel switch a container belongs to, the partitions its two
    slots are fed from, and the kind of event it holds. *)
Definition channelEnabled (cfg : Config) (c : Container) : bool :=
  match c with
  | sameEventMultCont | mixedEventMultCont => cfgProcessPM cfg
  | sameEventMultContPP | mixedEventMultContPP => cfgProcessPP cfg
  | sameEventMultContMM | mixedEventMultContMM => cfgProcessMM cfg
  end.

Definition fromPartitions (env : Environment) (cfg : Config) (c : Container)
    (p1 p2 : Particle) : bool :=
  match c with
  | sameEventMultCont | mixedEventMultCont => isPartOne env cfg p1 && isPartTwo env cfg p2
  | sameEventMultContPP | mixedEventMultContPP => isPartOne env cfg p1 && isPartOne env cfg p2
  | sameEventMultContMM | mixedEventMultContMM => isPartTwo env cfg p1 && isPartTwo env cfg p2
  end.

Definition holdsSame (c : Container) : bool :=
  match c with
  | sameEventMultCont | sameEventMultContPP | sameEventMultContMM => true
  | _ => false
  end.

Definition isSame (ev : EventType) : bool :=
  match ev with same => true | mixed => false end.

(** A pair fill as [processSameEvent] makes it for collision [col]: into a
    same-event container of an enabled channel, both particles rows of that
    collision and of the partitions of the channel. *)
Definition sameFillOK (env : Environment) (cfg : Config) (col : Collision)
    (e : Effect) : bool :=
  match e with
  | fill_mult_NumDen c p1 p2 ev maxl multCol kT =>
      isSame ev && holdsSame c && channelEnabled cfg c && fromPartitions env cfg c p1 p2
      && (maxl =? 2)%Z && (multCol =? multNtr col)%Z
      && (fdCollisionId p1 =? globalIndex col)%Z
      && (fdCollisionId p2 =? globalIndex col)%Z
  | fill_mult_kT_Cov _ _ _ => false
  | _ => true
  end.

(** A call as [processMixedEvent] makes it for the collision pair
    (collision1, collision2): the mixing-QA count of the bin of collision1,
    or a pair fill into a mixed-event container of an enabled channel, the
    first particle a row of collision1, the second of collision2. *)
Definition mixedFillOK (env : Environment) (cfg : Config)
    (collision1 collision2 : Collision) (e : Effect) : bool :=
  match e with
  | fill_mult_NumDen c p1 p2 ev maxl multCol kT =>
      negb (isSame ev) && negb (holdsSame c) && channelEnabled cfg c
      && fromPartitions env cfg c p1 p2
      && (maxl =? 2)%Z && (multCol =? multNtr collision1)%Z
      && (fdCollisionId p1 =? globalIndex collision1)%Z
      && (fdCollisionId p2 =? globalIndex collision2)%Z
  | hMECollisionBins_fill bin =>
      (bin =? colBinning_getBin env (posZ collision1) (multNtr collision1))%Z
  | _ => false
  end.

(** The container a call fills or evaluates, if any. *)
Definition containerOf (e : Effect) : option Container :=
  match e with
  | fill_mult_NumDen c _ _ _ _ _ _ => Some c
  | fill_mult_kT_Cov c _ _ => Some c
  | _ => None
  end.

(** The containers [init] has initialised. *)
Definition initialised (i : Initialised) (c : Container) : Prop :=
  exists registry lmax, In (MultContainer_init c registry lmax) (initCalls i).

(** A negative track of collision 0, a clear pion. *)
Definition negativeTrack : Particle := {|
  partIndex := 2; fdCollisionId := 0; partType := 0; sign := -1;
  pt := 0.4; eta := 0.1; p := 0.4;
  tpcNSigma := fun species => match species with Pion => 0.5 | _ => 10 end;
  tofNSigma := fun species => match species with Pion => 0.5 | _ => 10 end
|}.

(** ** The fills of the same-sign loop *)

(** The fill the same-sign loop of [doSameEvent] makes for a passing pair
    whose generator draws [rand]. *)
Definition drawnFill (env : Environment) (cfg : Config) (c : Container)
    (multCol : Z) (rand : R) (pr : Particle * Particle) : Effect :=
  let kT := getkT env (fst pr) (mass1 env cfg) (snd pr) (mass2 env cfg) in
  if Rgtb rand 0.5
  then fill_mult_NumDen c (fst pr) (snd pr) same 2 multCol kT
  else fill_mult_NumDen c (snd pr) (fst pr) same 2 multCol kT.

(** The fills for the passing pairs in order, the first drawing from
    generator [randgen], the next from the one constructed after it. *)
Fixpoint drawnFills (env : Environment) (cfg : Config) (c : Container)
    (multCol : Z) (randgen : nat) (passing : list (Particle * Particle))
  : list Effect :=
  match passing with
  | [] => []
  | pr :: passing' =>
      drawnFill env cfg c multCol (Rndm env randgen) pr
      :: drawnFills env cfg c multCol (S randgen) passing'
  end.

(** A positive track of collision [collision], a clear pion. *)
Definition positivePion (index collision : Z) : Particle := {|
  partIndex := index; fdCollisionId := collision; partType := 0; sign := 1;
  pt := 0.4; eta := 0.1; p := 0.4;
  tpcNSigma := fun species => match species with Pion => 0.5 | _ => 10 end;
  tofNSigma := fun species => match species with Pion => 0.5 | _ => 10 end
|}.

(** A particle table with one positive pion in collision 1 and one in
    collision 2. *)
Definition twoCollisionTracks : list Particle :=
  [positivePion 10 1; positivePion 20 2].
(** * Properties *)

(** ** Comparisons *)

Lemma Rltb_true (x y : R) : Rltb x y = true <-> x < y.
Proof. unfold Rltb. destruct (Rlt_dec x y); split; intros; try easy. Qed.

Lemma Rltb_false (x y : R) : Rltb x y = false <-> y <= x.
Proof.
  unfold Rltb. destruct (Rlt_dec x y); split; intros; try easy; lra.
Qed.

Lemma Rleb_true (x y : R) : Rleb x y = true <-> x <= y.
Proof. unfold Rleb. destruct (Rle_dec x y); split; intros; try easy. Qed.


Lemma Rneqb_false (x y : R) : Rneqb x y = false <-> x = y.
Proof.
  unfold Rneqb. destruct (Req_dec_T x y); split; intros; try easy.
Qed.

(** Decide every comparison of reals in the goal, keeping the outcomes
    that linear arithmetic does not exclude. *)
Ltac Rcompare :=
  unfold Rgtb, Rltb, Rleb, Rneqb in *;
  repeat match goal with
         | |- context [Rlt_dec ?a ?b] => destruct (Rlt_dec a b); try lra
         | |- context [Rle_dec ?a ?b] => destruct (Rle_dec a b); try lra
         | |- context [Req_dec_T ?a ?b] => destruct (Req_dec_T a b); try lra
         end.

Lemma Hypot_2_2 : Hypot 2.0 2.0 < 3.0.
Proof.
  unfold Hypot.
  replace 3.0 with (sqrt 9).
  - apply sqrt_lt_1; lra.
  - replace 9 with (3 * 3) by lra. rewrite sqrt_square; lra.
Qed.

(** ** Particle identification *)

Section PIDProperties.
Import PID.

(** C2. Proton admission is true exactly when the momentum is below
    [ConfTOFPtMin] and |nsigmaTPC| is below [ConfNsigmaTPC], or the momentum
    is at or above [ConfTOFPtMin] and sqrt(nsigmaTPC^2 + nsigmaTOF^2) is
    below [ConfNsigmaCombined]; with the thresholds 0.5 and 3.0 the inputs
    (0.4, 1.5) and (0.7, 2.0, 2.0) are admitted. *)
Theorem IsProtonNSigma_two_regions (cfg : Config) (mom nsigmaTPCPr nsigmaTOFPr : R) :
  (IsProtonNSigma cfg mom nsigmaTPCPr nsigmaTOFPr = true <->
     (mom < ConfTOFPtMin cfg /\ Rabs nsigmaTPCPr < ConfNsigmaTPC cfg) \/
     (ConfTOFPtMin cfg <= mom /\
      sqrt (nsigmaTPCPr * nsigmaTPCPr + nsigmaTOFPr * nsigmaTOFPr)
        < ConfNsigmaCombined cfg))
  /\ (ConfTOFPtMin cfg = 0.5 -> ConfNsigmaTPC cfg = 3.0 ->
      IsProtonNSigma cfg 0.4 1.5 nsigmaTOFPr = true)
  /\ (ConfTOFPtMin cfg = 0.5 -> ConfNsigmaCombined cfg = 3.0 ->
      IsProtonNSigma cfg 0.7 2.0 2.0 = true).
Proof.
  split; [| split].
  - unfold IsProtonNSigma, Hypot.
    rewrite (Rplus_comm (nsigmaTOFPr * nsigmaTOFPr)).
    destruct (Rltb mom (ConfTOFPtMin cfg)) eqn:Hmom.
    + apply Rltb_true in Hmom.
      destruct (Rltb (Rabs nsigmaTPCPr) (ConfNsigmaTPC cfg)) eqn:Htpc.
      * apply Rltb_true in Htpc. split; [intros _; left; split; assumption | reflexivity].
      * apply Rltb_false in Htpc. split; [discriminate |].
        intros [[_ H] | [H _]]; lra.
    + apply Rltb_false in Hmom.
      destruct (Rltb _ (ConfNsigmaCombined cfg)) eqn:Hcomb.
      * apply Rltb_true in Hcomb. split; [intros _; right; split; assumption | reflexivity].
      * apply Rltb_false in Hcomb. split; [discriminate |].
        intros [[H _] | [_ H]]; lra.
  - intros Hmin Htpc. unfold IsProtonNSigma. rewrite Hmin, Htpc.
    rewrite Rabs_pos_eq by lra. Rcompare; reflexivity || lra.
  - intros Hmin Hcomb. unfold IsProtonNSigma. rewrite Hmin, Hcomb.
    pose proof Hypot_2_2. Rcompare; reflexivity || lra.
Qed.

Lemma IsProtonNSigma_two_regions_witness :
  (IsProtonNSigma defaultConfig 0.4 1.5 0 = true)
  /\ (IsProtonNSigma defaultConfig 0.7 2.0 2.0 = true).
Proof.
  destruct (IsProtonNSigma_two_regions defaultConfig 0.4 1.5 0) as (_ & H1 & H2).
  split; [apply H1 | apply H2]; reflexivity.
Defined.

Lemma IsKaonNSigma_band (mom nsigmaTPCK nsigmaTOFK : R) :
  IsKaonNSigma mom nsigmaTPCK nsigmaTOFK =
  match kaonBand mom with
  | Some (None, cutTPC) => if Rltb (Rabs nsigmaTPCK) cutTPC then true else false
  | Some (Some cutTOF, cutTPC) =>
      if Rltb (Rabs nsigmaTOFK) cutTOF && Rltb (Rabs nsigmaTPCK) cutTPC
      then true else false
  | None => false
  end.
Proof.
  unfold IsKaonNSigma, kaonBand, Rgtb.
  unfold Rltb at 1. destruct (Rlt_dec mom 0.3); [reflexivity |].
  unfold Rltb at 1. destruct (Rlt_dec mom 0.45); [reflexivity |].
  unfold Rltb at 1. destruct (Rlt_dec mom 0.55); [reflexivity |].
  unfold Rltb at 1. destruct (Rlt_dec mom 1.5); [reflexivity |].
  unfold Rltb at 1. destruct (Rlt_dec 1.5 mom); reflexivity.
Qed.

(** C3. Kaon admission has five momentum bands with their own cut-offs:
    |nsigmaTPC| < 3 below 0.3; |nsigmaTPC| < 2 in [0.3, 0.45);
    |nsigmaTPC| < 1 in [0.45, 0.55); |nsigmaTOF| < 3 and |nsigmaTPC| < 3 in
    [0.55, 1.5); |nsigmaTOF| < 2 and |nsigmaTPC| < 3 above 1.5.  At momentum
    0.5 the value nsigmaTPC = 1.2 is rejected. *)
Theorem IsKaonNSigma_bands (mom nsigmaTPCK nsigmaTOFK : R) :
  (mom < 0.3 ->
     (IsKaonNSigma mom nsigmaTPCK nsigmaTOFK = true <-> Rabs nsigmaTPCK < 3.0))
  /\ (0.3 <= mom < 0.45 ->
     (IsKaonNSigma mom nsigmaTPCK nsigmaTOFK = true <-> Rabs nsigmaTPCK < 2.0))
  /\ (0.45 <= mom < 0.55 ->
     (IsKaonNSigma mom nsigmaTPCK nsigmaTOFK = true <-> Rabs nsigmaTPCK < 1.0))
  /\ (0.55 <= mom < 1.5 ->
     (IsKaonNSigma mom nsigmaTPCK nsigmaTOFK = true <->
        Rabs nsigmaTOFK < 3.0 /\ Rabs nsigmaTPCK < 3.0))
  /\ (mom > 1.5 ->
     (IsKaonNSigma mom nsigmaTPCK nsigmaTOFK = true <->
        Rabs nsigmaTOFK < 2.0 /\ Rabs nsigmaTPCK < 3.0))
  /\ IsKaonNSigma 0.5 1.2 nsigmaTOFK = false.
Proof.
  assert (Hif : forall b : bool, (if b then true else false) = b) by (now intros []).
  split; [| split; [| split; [| split; [| split]]]]; try intros Hband.
  - rewrite (IsKaonNSigma_band mom nsigmaTPCK nsigmaTOFK).
    unfold kaonBand. repeat (destruct Rlt_dec; try lra). rewrite Hif. apply Rltb_true.
  - rewrite (IsKaonNSigma_band mom nsigmaTPCK nsigmaTOFK).
    unfold kaonBand. repeat (destruct Rlt_dec; try lra). rewrite Hif. apply Rltb_true.
  - rewrite (IsKaonNSigma_band mom nsigmaTPCK nsigmaTOFK).
    unfold kaonBand. repeat (destruct Rlt_dec; try lra). rewrite Hif. apply Rltb_true.
  - rewrite (IsKaonNSigma_band mom nsigmaTPCK nsigmaTOFK).
    unfold kaonBand. repeat (destruct Rlt_dec; try lra).
    rewrite Hif, andb_true_iff, !Rltb_true. reflexivity.
  - rewrite (IsKaonNSigma_band mom nsigmaTPCK nsigmaTOFK).
    unfold kaonBand. repeat (destruct Rlt_dec; try lra).
    rewrite Hif, andb_true_iff, !Rltb_true. reflexivity.
  - unfold IsKaonNSigma. rewrite (Rabs_pos_eq 1.2) by lra.
    Rcompare; reflexivity || lra.
Qed.

Lemma IsKaonNSigma_bands_witness :
  IsKaonNSigma 0.2 2.5 0 = true
  /\ IsKaonNSigma 0.4 2.5 0 = false
  /\ IsKaonNSigma 0.5 0.5 0 = true
  /\ IsKaonNSigma 1.0 2.5 2.5 = true
  /\ IsKaonNSigma 2.0 2.5 2.5 = false.
Proof.
  assert (H25 : Rabs 2.5 = 2.5) by (apply Rabs_pos_eq; lra).
  assert (H05 : Rabs 0.5 = 0.5) by (apply Rabs_pos_eq; lra).
  repeat split.
  - destruct (IsKaonNSigma_bands 0.2 2.5 0) as (H & _).
    apply H; [lra | rewrite H25; lra].
  - destruct (IsKaonNSigma_bands 0.4 2.5 0) as (_ & H & _).
    destruct (IsKaonNSigma 0.4 2.5 0); [| reflexivity].
    assert (Rabs 2.5 < 2.0) by (apply H; [lra | reflexivity]). lra.
  - destruct (IsKaonNSigma_bands 0.5 0.5 0) as (_ & _ & H & _).
    apply H; [lra | rewrite H05; lra].
  - destruct (IsKaonNSigma_bands 1.0 2.5 2.5) as (_ & _ & _ & H & _).
    apply H; [lra | rewrite H25; lra].
  - destruct (IsKaonNSigma_bands 2.0 2.5 2.5) as (_ & _ & _ & _ & H & _).
    destruct (IsKaonNSigma 2.0 2.5 2.5); [| reflexivity].
    assert (Rabs 2.5 < 2.0 /\ Rabs 2.5 < 3.0) as [? _] by (apply H; [lra | reflexivity]).
    lra.
Defined.

(** C10. At momentum exactly 1.5 kaon admission is false whatever the PID
    values: the band below is guarded by [mom < 1.5], the band above by
    [mom > 1.5]. *)
Theorem IsKaonNSigma_at_1_5 (nsigmaTPCK nsigmaTOFK : R) :
  IsKaonNSigma 1.5 nsigmaTPCK nsigmaTOFK = false.
Proof. unfold IsKaonNSigma. Rcompare; reflexivity || lra. Qed.

End PIDProperties.

(** ** Runs of the effect monad *)

Lemma run_bind {A B} (m : Eff A) (f : A -> Eff B) (s : nat) :
  (m ≫= f) s =
  match outcome (m s) with
  | Done a =>
      MkRun (trace (m s) ++ trace (f a (gens (m s))))
            (gens (f a (gens (m s)))) (outcome (f a (gens (m s))))
  | Fatal msg arg => MkRun (trace (m s)) (gens (m s)) (Fatal msg arg)
  end.
Proof. reflexivity. Qed.

Lemma run_ret {A} (a : A) (s : nat) : (mret a : Eff A) s = MkRun [] s (Done a).
Proof. reflexivity. Qed.

Lemma run_eta {A} (r : Run A) : MkRun (trace r) (gens r) (outcome r) = r.
Proof. destruct r; reflexivity. Qed.

(** A pure step: no call, no generator, a definite result. *)
Lemma run_bind_pure {A B} (m : Eff A) (f : A -> Eff B) (s : nat) (a : A) :
  m s = MkRun [] s (Done a) -> (m ≫= f) s = f a s.
Proof.
  intros Hm. rewrite run_bind, Hm. simpl. apply run_eta.
Qed.

Lemma run_emit_then {B} (e : Effect) (k : Eff B) (s : nat) :
  (emit e ;; k) s = MkRun (e :: trace (k s)) (gens (k s)) (outcome (k s)).
Proof. reflexivity. Qed.

(** ** Species dispatch *)

Section DispatchProperties.
Import PID Dispatch.
Local Open Scope Z_scope.

(** C9 as the spec states it fails for unsupported species codes: with the
    electron code 11 configured for particle one, the dispatch for role 1
    ends normally with [false]; nothing is fatal. *)
Lemma IsParticleNSigma_electron_not_fatal :
  supportedSpecies (speciesOfRole cfgElectron 1) = false
  /\ IsParticleNSigma cfgElectron 1 0.4 0 0 0 0 0 0 0%nat = MkRun [] 0%nat (Done false)
  /\ is_fatal (outcome (IsParticleNSigma cfgElectron 1 0.4 0 0 0 0 0 0 0%nat)) = false.
Proof. repeat split. Qed.

(** C9, amended. A particle role other than 1 or 2 ends the run in the
    fatal report of [IsParticleNSigma], with no call made before it; for
    role 1 or 2 a species code that is not proton, pion or kaon is not an
    error: the particle is not admitted ([false]) and the run goes on. *)
Theorem IsParticleNSigma_errors (cfg : Config) (particle_number : Z)
    (mom nsigmaTPCPr nsigmaTOFPr nsigmaTPCPi nsigmaTOFPi nsigmaTPCK nsigmaTOFK : R)
    (s : nat) :
  (particle_number <> 1 -> particle_number <> 2 ->
     IsParticleNSigma cfg particle_number mom nsigmaTPCPr nsigmaTOFPr
       nsigmaTPCPi nsigmaTOFPi nsigmaTPCK nsigmaTOFK s
     = MkRun [] s
         (Fatal "Wrong number of particle chosen! It should be 1 or 2. It is -> %d"
                particle_number))
  /\ (particle_number = 1 \/ particle_number = 2 ->
      supportedSpecies (speciesOfRole cfg particle_number) = false ->
      IsParticleNSigma cfg particle_number mom nsigmaTPCPr nsigmaTOFPr
        nsigmaTPCPi nsigmaTOFPi nsigmaTPCK nsigmaTOFK s
      = MkRun [] s (Done false)).
Proof.
  split.
  - intros H1 H2. unfold IsParticleNSigma.
    apply Z.eqb_neq in H1, H2. rewrite H1, H2. reflexivity.
  - intros Hrole Hcode. unfold supportedSpecies, speciesOfRole in Hcode.
    repeat (apply orb_false_elim in Hcode; destruct Hcode as [Hcode ?]).
    unfold IsParticleNSigma.
    destruct Hrole as [-> | ->]; simpl in *.
    all: repeat match goal with H : (_ =? _) = false |- _ => rewrite H; clear H end.
    all: reflexivity.
Qed.

Lemma IsParticleNSigma_errors_witness :
  IsParticleNSigma defaultConfig 3 0.4 0 0 0 0 0 0 0%nat
  = MkRun [] 0%nat
      (Fatal "Wrong number of particle chosen! It should be 1 or 2. It is -> %d" 3)
  /\ IsParticleNSigma cfgElectron 1 0.4 0 0 0 0 0 0 0%nat = MkRun [] 0%nat (Done false).
Proof.
  split.
  - apply (IsParticleNSigma_errors defaultConfig 3 0.4 0 0 0 0 0 0 0%nat); lia.
  - apply (IsParticleNSigma_errors cfgElectron 1 0.4 0 0 0 0 0 0 0%nat);
      [left; reflexivity | reflexivity].
Defined.

(** The dispatch makes no call and constructs no generator. *)
Lemma IsParticleNSigma_run (cfg : Config) (particle_number : Z)
    (mom a b c d e f : R) (s : nat) :
  IsParticleNSigma cfg particle_number mom a b c d e f s
  = MkRun [] s (outcome (IsParticleNSigma cfg particle_number mom a b c d e f s)).
Proof.
  unfold IsParticleNSigma.
  repeat match goal with |- context [if ?b then _ else _] => destruct b end;
    reflexivity.
Qed.

Lemma gate_run (cfg : Config) (particle_number : Z) (part : Particle) (s : nat) :
  gate cfg particle_number part s
  = MkRun [] s (outcome (gate cfg particle_number part s)).
Proof. apply IsParticleNSigma_run. Qed.

(** For the roles the task uses the dispatch always answers. *)
Lemma gate_answers (cfg : Config) (particle_number : Z) (part : Particle) (s : nat) :
  particle_number = 1 \/ particle_number = 2 ->
  exists ok, gate cfg particle_number part s = MkRun [] s (Done ok).
Proof.
  intros [-> | ->]; unfold gate, IsParticleNSigma; simpl.
  all: repeat match goal with |- context [if ?b then _ else _] => destruct b end.
  all: eexists; reflexivity.
Qed.

Lemma bind_gate {B} (cfg : Config) (particle_number : Z) (part : Particle)
    (f : bool -> Eff B) (s : nat) (ok : bool) :
  outcome (gate cfg particle_number part s) = Done ok ->
  (gate cfg particle_number part ≫= f) s = f ok s.
Proof.
  intros Hok. apply run_bind_pure. rewrite gate_run, Hok. reflexivity.
Qed.

Lemma gate_state_independent (cfg : Config) (particle_number : Z) (part : Particle)
    (s s' : nat) :
  outcome (gate cfg particle_number part s) = outcome (gate cfg particle_number part s').
Proof.
  unfold gate, IsParticleNSigma.
  repeat match goal with |- context [if ?b then _ else _] => destruct b end;
    reflexivity.
Qed.

End DispatchProperties.

(** Decide the comparisons and absolute values of a PID verdict on concrete
    numbers. *)
Ltac Rverdict :=
  unfold PID.IsProtonNSigma, PID.IsPionNSigma, PID.IsKaonNSigma; simpl;
  unfold Rabs;
  repeat match goal with
         | |- context [Rcase_abs ?a] => destruct (Rcase_abs a); try lra
         end;
  Rcompare; try reflexivity; try lra.

(** ** The pair loops *)

Section PairLoops.
Import Dispatch.

Variable env : Environment.
Variable cfg : Config.

(** The body of the same-sign loop, run on a pair that passes the PID
    gates, the close-pair rejection and the pair cleaning, fills it once:
    with (p1, p2) when the draw is above 0.5, with (p2, p1) when it is
    not. *)
Lemma doSameEvent_pairIden_fills_once (parts : list Particle) (magFieldTesla : R)
    (multCol ContType : Z) (p1 p2 : Particle) (s : nat) :
  ContType = 2%Z \/ ContType = 3%Z ->
  outcome (gate cfg 2 p1 s) = Done true ->
  outcome (gate cfg 2 p2 s) = Done true ->
  ConfIsCPR cfg && isClosePair env p1 p2 parts magFieldTesla same = false ->
  isCleanPair env p1 p2 parts = true ->
  let r := doSameEvent_pairIden env cfg parts magFieldTesla multCol ContType (p1, p2) s in
  let c := if (ContType =? 2)%Z then sameEventMultContPP else sameEventMultContMM in
  let kT := getkT env p1 (mass1 env cfg) p2 (mass2 env cfg) in
  let rand := Rndm env s in
  outcome r = Done tt
  /\ calls isNumDen (trace r) = 1%nat
  /\ (rand > 0.5 -> trace r = [fill_mult_NumDen c p1 p2 same 2 multCol kT])
  /\ (rand <= 0.5 -> trace r = [fill_mult_NumDen c p2 p1 same 2 multCol kT])
  /\ (rand > 0.5 \/ rand <= 0.5)
  /\ ~ (rand > 0.5 /\ rand <= 0.5).
Proof.
  intros HCont Hok1 Hok2 Hclose Hclean r c kT rand.
  assert (Hr : r = if Rgtb rand 0.5
                   then MkRun [fill_mult_NumDen c p1 p2 same 2 multCol kT] (S s) (Done tt)
                   else MkRun [fill_mult_NumDen c p2 p1 same 2 multCol kT] (S s) (Done tt)).
  { subst r. unfold doSameEvent_pairIden.
    rewrite (bind_gate _ _ _ _ _ _ Hok1).
    cbn [negb].
    rewrite (bind_gate _ _ _ _ _ _ Hok2).
    cbn [negb]. rewrite Hclose, Hclean. cbn [negb].
    rewrite run_bind. simpl.
    destruct HCont as [-> | ->]; simpl.
    all: fold rand; fold kT; subst c; simpl.
    all: unfold Rgtb, Rleb, Rltb.
    all: destruct (Rlt_dec 0.5 rand); [reflexivity |].
    all: destruct (Rle_dec rand 0.5); [reflexivity | lra]. }
  rewrite Hr. unfold Rgtb, Rltb.
  destruct (Rlt_dec 0.5 rand) as [Hgt | Hle]; simpl.
  all: repeat split; try reflexivity; try (intros; lra); try lra.
Qed.


(** The first gate of the mixed-event pair loop asks for role 2: a first
    particle that does not fit the species of particle two is dropped,
    whatever the species of particle one says. *)
Lemma doMixedEvent_pair_first_gate (parts : list Particle) (magFieldTesla : R)
    (multCol ContType : Z) (p1 p2 : Particle) (s : nat) :
  outcome (gate cfg 2 p1 s) = Done false ->
  doMixedEvent_pair env cfg parts magFieldTesla multCol ContType (p1, p2) s
  = MkRun [] s (Done tt).
Proof.
  intros Hok. unfold doMixedEvent_pair.
  rewrite (bind_gate _ _ _ _ _ _ Hok). reflexivity.
Qed.

End PairLoops.


Section SameEventPM.
Import Dispatch.

Variable env : Environment.
Variable cfg : Config.

(** The opposite-sign same-event loop gates the first particle for role 1
    and the second for role 2, and fills the pair that passes. *)
Lemma doSameEvent_pairPM_fills (parts : list Particle) (magFieldTesla : R)
    (multCol : Z) (p1 p2 : Particle) (s : nat) :
  outcome (gate cfg 1 p1 s) = Done true ->
  outcome (gate cfg 2 p2 s) = Done true ->
  ConfIsCPR cfg && isClosePair env p1 p2 parts magFieldTesla same = false ->
  isCleanPair env p1 p2 parts = true ->
  doSameEvent_pairPM env cfg parts magFieldTesla multCol (p1, p2) s
  = MkRun [fill_mult_NumDen sameEventMultCont p1 p2 same 2 multCol
             (getkT env p1 (mass1 env cfg) p2 (mass2 env cfg))] s (Done tt).
Proof.
  intros Hok1 Hok2 Hclose Hclean. unfold doSameEvent_pairPM.
  rewrite (bind_gate _ _ _ _ _ _ Hok1). cbn [negb].
  rewrite (bind_gate _ _ _ _ _ _ Hok2). cbn [negb].
  rewrite Hclose, Hclean. reflexivity.
Qed.

End SameEventPM.

Section MixedEventPM.
Import Dispatch.

(** C8 fails on the code. Opposite-sign pion-kaon analysis, a pion in role
    one and a kaon in role two: each fits the species of its own role, and
    the same-event loop fills the pair; the mixed-event loop asks both
    particles for the species of particle two, finds that the pion is not a
    kaon, and fills nothing. *)
Theorem doMixedEvent_PM_gates_role_one_as_two :
  let parts := [pionTrack; kaonTrack] in
  outcome (gate cfgPionKaon 1 pionTrack 0%nat) = Done true
  /\ outcome (gate cfgPionKaon 2 kaonTrack 0%nat) = Done true
  /\ outcome (gate cfgPionKaon 2 pionTrack 0%nat) = Done false
  /\ doSameEvent exampleEnv cfgPionKaon [pionTrack] [kaonTrack] parts 0.5 10 1 false 0%nat
     = MkRun [fill_mult_NumDen sameEventMultCont pionTrack kaonTrack same 2 10 0.2]
             0%nat (Done tt)
  /\ doMixedEvent exampleEnv cfgPionKaon [pionTrack] [kaonTrack] parts 0.5 10 1 0%nat
     = MkRun [] 0%nat (Done tt).
Proof.
  intros parts.
  assert (H1 : outcome (gate cfgPionKaon 1 pionTrack 0%nat) = Done true).
  { unfold gate, IsParticleNSigma. simpl. apply f_equal. Rverdict. }
  assert (H2 : outcome (gate cfgPionKaon 2 kaonTrack 0%nat) = Done true).
  { unfold gate, IsParticleNSigma. simpl. apply f_equal. Rverdict. }
  assert (H3 : outcome (gate cfgPionKaon 2 pionTrack 0%nat) = Done false).
  { unfold gate, IsParticleNSigma. simpl. apply f_equal. Rverdict. }
  repeat split; try assumption.
  - unfold doSameEvent.
    change (CombinationsFullIndexPolicy [pionTrack] [kaonTrack])
      with [(pionTrack, kaonTrack)].
    cbn [Z.eqb Pos.eqb orb andb when_ forM_].
    rewrite !run_bind. cbn [outcome run_ret trace gens app].
    rewrite !run_ret. cbn [outcome trace gens app].
    rewrite (doSameEvent_pairPM_fills exampleEnv cfgPionKaon parts 0.5 10
               pionTrack kaonTrack 0%nat H1 H2 eq_refl eq_refl).
    reflexivity.
  - unfold doMixedEvent.
    change (CombinationsFullIndexPolicy [pionTrack] [kaonTrack])
      with [(pionTrack, kaonTrack)].
    cbn [forM_]. rewrite run_bind.
    rewrite (doMixedEvent_pair_first_gate exampleEnv cfgPionKaon parts 0.5 10 1
               pionTrack kaonTrack 0%nat H3).
    reflexivity.
Qed.

End MixedEventPM.

(** ** Pair combinatorics *)

Section Combinatorics.
Local Open Scope nat_scope.

(** Decide the index comparisons of the goal. *)
Ltac index_cases :=
  repeat match goal with
         | |- context [Nat.ltb ?x ?y] => destruct (Nat.ltb_spec x y)
         | |- context [Nat.leb ?x ?y] => destruct (Nat.leb_spec x y)
         | |- context [Nat.eqb ?x ?y] => destruct (Nat.eqb_spec x y)
         end;
  simpl; try reflexivity; try lia.

Lemma occurrences_app (i j : nat) (l1 l2 : list (nat * nat)) :
  occurrences i j (l1 ++ l2) = occurrences i j l1 + occurrences i j l2.
Proof. unfold occurrences. rewrite List.filter_app, List.length_app. reflexivity. Qed.

(** One row of the triangle or of the cross: [a] paired with the indices
    [b, b + n). *)
Lemma occurrences_row (i j a b n : nat) :
  occurrences i j (map (pair a) (seq b n))
  = if Nat.eqb a i && Nat.leb b j && Nat.ltb j (b + n) then 1 else 0.
Proof.
  revert b. induction n as [| n IH]; intros b.
  - unfold occurrences. cbn [seq map List.filter length]. index_cases.
  - change (map (pair a) (seq b (S n))) with ([(a, b)] ++ map (pair a) (seq (S b) n)).
    rewrite occurrences_app, IH. unfold occurrences.
    cbn [List.filter fst snd]. index_cases.
Qed.

Lemma StrictlyUpper_cons {A} (a : A) (l : list A) :
  CombinationsStrictlyUpperIndexPolicy (a :: l) (a :: l)
  = map (pair a) l ++ CombinationsStrictlyUpperIndexPolicy l l.
Proof. reflexivity. Qed.

Lemma StrictlyUpper_occurrences (i j a n : nat) :
  occurrences i j (CombinationsStrictlyUpperIndexPolicy (seq a n) (seq a n))
  = if Nat.leb a i && Nat.ltb i j && Nat.ltb j (a + n) then 1 else 0.
Proof.
  revert a. induction n as [| n IH]; intros a.
  - unfold occurrences.
    cbn [seq CombinationsStrictlyUpperIndexPolicy List.filter length]. index_cases.
  - change (seq a (S n)) with (a :: seq (S a) n).
    rewrite StrictlyUpper_cons, occurrences_app, occurrences_row, IH. index_cases.
Qed.

Lemma Full_occurrences (i j a n M : nat) :
  occurrences i j (CombinationsFullIndexPolicy (seq a n) (seq 0 M))
  = if Nat.leb a i && Nat.ltb i (a + n) && Nat.ltb j M then 1 else 0.
Proof.
  unfold CombinationsFullIndexPolicy.
  revert a. induction n as [| n IH]; intros a.
  - unfold occurrences. cbn [seq flat_map List.filter length]. index_cases.
  - change (seq a (S n)) with (a :: seq (S a) n). cbn [flat_map].
    rewrite occurrences_app, occurrences_row, IH. index_cases.
Qed.

Lemma StrictlyUpper_length {A} (l : list A) :
  2 * length (CombinationsStrictlyUpperIndexPolicy l l) = length l * (length l - 1).
Proof.
  induction l as [| a l IH].
  - reflexivity.
  - rewrite StrictlyUpper_cons, List.length_app, List.length_map.
    cbn [length]. nia.
Qed.

Lemma Full_length {A B} (setA : list A) (setB : list B) :
  length (CombinationsFullIndexPolicy setA setB) = length setA * length setB.
Proof.
  unfold CombinationsFullIndexPolicy.
  induction setA as [| a setA IH].
  - reflexivity.
  - cbn [flat_map length]. rewrite List.length_app, List.length_map, IH. lia.
Qed.

(** The policies look at positions only: they commute with any map of the
    rows. *)
Lemma StrictlyUpper_map {A B} (f : A -> B) (l : list A) :
  CombinationsStrictlyUpperIndexPolicy (map f l) (map f l)
  = map (both f) (CombinationsStrictlyUpperIndexPolicy l l).
Proof.
  induction l as [| a l IH].
  - reflexivity.
  - cbn [map]. rewrite !StrictlyUpper_cons, List.map_app, IH, !List.map_map.
    reflexivity.
Qed.

Lemma Full_map {A B C D} (f : A -> C) (g : B -> D) (setA : list A) (setB : list B) :
  CombinationsFullIndexPolicy (map f setA) (map g setB)
  = map (each f g) (CombinationsFullIndexPolicy setA setB).
Proof.
  unfold CombinationsFullIndexPolicy.
  induction setA as [| a setA IH].
  - reflexivity.
  - cbn [map flat_map]. rewrite List.map_app, IH, !List.map_map. reflexivity.
Qed.

Lemma indexed_fst {A} (rows : list A) : map fst (indexed rows) = seq 0 (length rows).
Proof.
  unfold indexed. generalize 0. induction rows as [| a rows IH]; intros b.
  - reflexivity.
  - cbn. rewrite IH. reflexivity.
Qed.

Lemma indexed_snd {A} (rows : list A) : map snd (indexed rows) = rows.
Proof.
  unfold indexed. generalize 0. induction rows as [| a rows IH]; intros b.
  - reflexivity.
  - cbn. rewrite IH. reflexivity.
Qed.

(** C5. StrictUpper on a collection of N rows enumerates N(N-1)/2 pairs:
    the index pair (i, j) occurs once when i < j < N and never otherwise, so
    every unordered pair appears once and no row is paired with itself.
    FullCross on collections of N and M rows enumerates N M pairs: the index
    pair (i, j) occurs once when i < N and j < M and never otherwise.  The
    pairs of rows are the rows at these index pairs, in the same order. *)
Theorem combination_policies_enumerate {A B} (setA : list A) (setB : list B) :
  let N := length setA in
  let M := length setB in
  let upper := CombinationsStrictlyUpperIndexPolicy (indexed setA) (indexed setA) in
  let full := CombinationsFullIndexPolicy (indexed setA) (indexed setB) in
  length (CombinationsStrictlyUpperIndexPolicy setA setA) = N * (N - 1) / 2
  /\ map (both snd) upper = CombinationsStrictlyUpperIndexPolicy setA setA
  /\ (forall i j, occurrences i j (map (both fst) upper)
                  = if Nat.ltb i j && Nat.ltb j N then 1 else 0)
  /\ (forall i, occurrences i i (map (both fst) upper) = 0)
  /\ length (CombinationsFullIndexPolicy setA setB) = N * M
  /\ map (each snd snd) full = CombinationsFullIndexPolicy setA setB
  /\ (forall i j, occurrences i j (map (each fst fst) full)
                  = if Nat.ltb i N && Nat.ltb j M then 1 else 0).
Proof.
  intros N M upper full. subst upper full.
  rewrite <- !StrictlyUpper_map, <- !Full_map, !indexed_fst, !indexed_snd.
  fold N M.
  assert (Hocc : forall i j,
             occurrences i j (CombinationsStrictlyUpperIndexPolicy (seq 0 N) (seq 0 N))
             = if Nat.ltb i j && Nat.ltb j N then 1 else 0).
  { intros i j. rewrite StrictlyUpper_occurrences. reflexivity. }
  repeat split.
  - pose proof (StrictlyUpper_length setA) as H. fold N in H.
    apply Nat.div_unique_exact; lia.
  - exact Hocc.
  - intros i. rewrite Hocc, Nat.ltb_irrefl. reflexivity.
  - apply Full_length.
  - intros i j. rewrite Full_occurrences. reflexivity.
Qed.

End Combinatorics.

(** ** Event mixing *)

Section Mixing.
Import MixingPool.

Lemma mostRecent_all {A} (n : nat) (l : list A) :
  (length l <= n)%nat -> mostRecent n l = l.
Proof.
  intros H. unfold mostRecent.
  replace (length l - n)%nat with 0%nat by lia. reflexivity.
Qed.

Lemma mostRecent_length {A} (n : nat) (l : list A) :
  length (mostRecent n l) = Nat.min n (length l).
Proof. unfold mostRecent. rewrite length_drop. lia. Qed.

Lemma mostRecent_idem {A} (n : nat) (l : list A) :
  mostRecent n (mostRecent n l) = mostRecent n l.
Proof. apply mostRecent_all. rewrite mostRecent_length. lia. Qed.

(** Evicting down to [n] entries before an insertion loses nothing the
    window of [n] entries after the insertion needs. *)
Lemma mostRecent_snoc {A} (n : nat) (l : list A) (x : A) :
  mostRecent n (mostRecent n l ++ [x]) = mostRecent n (l ++ [x]).
Proof.
  destruct (Nat.le_gt_cases (length l) n) as [Hle | Hgt].
  - rewrite (mostRecent_all n l Hle). reflexivity.
  - destruct n as [| n].
    { unfold mostRecent. rewrite !Nat.sub_0_r, !drop_all. reflexivity. }
    unfold mostRecent. rewrite !length_app, length_drop. cbn [length].
    replace (length l - (length l - S n) + 1 - S n)%nat with 1%nat by lia.
    replace (length l + 1 - S n)%nat with (length l - S n + 1)%nat by lia.
    rewrite (drop_app_le l) by lia.
    rewrite drop_app_le by (rewrite length_drop; lia).
    rewrite drop_drop. reflexivity.
Qed.

Variable binOf : Collision -> Z.

Lemma buffer_insert_event (pool : MixingPool) (event : Collision) :
  buffer (insert_event binOf event pool) (binOf event)
  = mostRecent (mixingDepth pool) (buffer pool (binOf event) ++ [event]).
Proof. unfold insert_event, buffer. cbn. rewrite lookup_insert_eq. reflexivity. Qed.

(** MixingPool invariant: a buffer never holds more than [mixingDepth]
    events. *)
Lemma insert_event_bounded (pool : MixingPool) (event : Collision) :
  (length (buffer (insert_event binOf event pool) (binOf event))
   <= mixingDepth pool)%nat.
Proof. rewrite buffer_insert_event, mostRecent_length. lia. Qed.

(** Mixing the collisions of one bin against the pool gives every
    collision the window of its predecessors. *)
Lemma mix_one_bin (bin : Z) (cols prev : list Collision) (pool : MixingPool) :
  Forall (fun col => binOf col = bin) cols ->
  buffer pool bin = mostRecent (mixingDepth pool) prev ->
  mix binOf pool cols = windows (mixingDepth pool) prev cols.
Proof.
  intros Hbin. revert prev pool.
  induction Hbin as [| col cols Hcol Hcols IH]; intros prev pool Hbuf.
  - reflexivity.
  - cbn [mix windows]. unfold windowedPairs.
    rewrite Hcol, Hbuf, mostRecent_idem. f_equal.
    rewrite (IH (prev ++ [col]) (insert_event binOf col pool)).
    + reflexivity.
    + rewrite <- Hcol at 1. rewrite buffer_insert_event, Hcol, Hbuf.
      apply mostRecent_snoc.
Qed.

Lemma windows_snoc (depth : nat) (prev cols : list Collision) (col : Collision) :
  windows depth prev (cols ++ [col])
  = windows depth prev cols ++ map (pair col) (mostRecent depth (prev ++ cols)).
Proof.
  revert prev. induction cols as [| c cols IH]; intros prev.
  - cbn. rewrite !app_nil_r. reflexivity.
  - cbn [app windows]. rewrite IH, <- !app_assoc. reflexivity.
Qed.

Lemma filter_bins_id (bin outsider : Z) (cols : list Collision) :
  bin <> outsider ->
  Forall (fun col => binOf col = bin) cols ->
  List.filter (fun col => negb (binOf col =? outsider)%Z) cols = cols.
Proof.
  intros Hout Hbin. induction Hbin as [| col cols Hcol Hcols IH].
  - reflexivity.
  - cbn [List.filter]. rewrite Hcol, IH.
    apply Z.eqb_neq in Hout. rewrite Hout. reflexivity.
Qed.

Lemma selfCombinations_one_bin (bin outsider categoryNeighbours : Z)
    (cols : list Collision) :
  bin <> outsider ->
  Forall (fun col => binOf col = bin) cols ->
  selfCombinations binOf categoryNeighbours outsider cols
  = windows (Z.to_nat categoryNeighbours) [] cols.
Proof.
  intros Hout Hbin. unfold selfCombinations.
  rewrite (filter_bins_id bin outsider cols Hout Hbin).
  apply (mix_one_bin bin); [exact Hbin |].
  unfold buffer. cbn. rewrite lookup_empty. reflexivity.
Qed.

End Mixing.

(** The scenario of the pool: depth 2, E1, E2 and E3 inserted into one
    bin; E4 is paired with E2 and E3, not with E1. *)
Lemma windowedPairs_depth_2 :
  let binOf := fun col => multNtr col in
  let pool0 := {| MixingPool.mixingDepth := 2; MixingPool.buffers := ∅ |} in
  let pool3 := MixingPool.insert_event binOf E3
                 (MixingPool.insert_event binOf E2
                    (MixingPool.insert_event binOf E1 pool0)) in
  MixingPool.windowedPairs binOf pool3 E4 = [(E4, E2); (E4, E3)].
Proof. reflexivity. Qed.

Section MixingWindow.
Import MixingPool.

Variable env : Environment.

(** The window [processMixedEvent] mixes over: a new collision is paired
    with the five collisions of its bin that came last before it, fewer
    when fewer came, in the order in which they came. *)
Lemma mixedEventPairs_window (bin : Z) (prev : list Collision) (newEvent : Collision) :
  bin <> (-1)%Z ->
  Forall (fun col => colBinning_getBin env (posZ col) (multNtr col) = bin)
         (prev ++ [newEvent]) ->
  mixedEventPairs env (prev ++ [newEvent])
  = mixedEventPairs env prev ++ map (pair newEvent) (mostRecent 5 prev)
  /\ length (mostRecent 5 prev) = Nat.min 5 (length prev).
Proof.
  intros Hout Hbin. split; [| apply mostRecent_length].
  unfold mixedEventPairs.
  rewrite (selfCombinations_one_bin _ bin (-1) 5 (prev ++ [newEvent]) Hout Hbin).
  apply Forall_app in Hbin as [Hprev _].
  rewrite (selfCombinations_one_bin _ bin (-1) 5 prev Hout Hprev).
  rewrite windows_snoc. reflexivity.
Qed.

(** The configured mixing depth has no part in [processMixedEvent]. *)
Lemma processMixedEvent_ignores_ConfNEventsMix (cfg : Config) (n : Z)
    (cols : list Collision) (parts : list Particle) :
  processMixedEvent env (setNEventsMix n cfg) cols parts
  = processMixedEvent env cfg cols parts.
Proof. reflexivity. Qed.

End MixingWindow.

(** C1 fails on the code. With [ConfNEventsMix] set to 2 and four
    collisions of one bin, the fourth is mixed with all three that came
    before it, where a window of the configured depth holds the last two:
    the window is the literal 5 of [processMixedEvent], and the run is the
    one of the default configuration. *)
Theorem mixing_window_not_ConfNEventsMix :
  let binOf := fun col => colBinning_getBin exampleEnv (posZ col) (multNtr col) in
  ConfNEventsMix cfgDepth2 = 2%Z
  /\ mixedEventPairs exampleEnv [E1; E2; E3; E4]
     = mixedEventPairs exampleEnv [E1; E2; E3] ++ [(E4, E1); (E4, E2); (E4, E3)]
  /\ MixingPool.selfCombinations binOf (ConfNEventsMix cfgDepth2) (-1) [E1; E2; E3; E4]
     = MixingPool.selfCombinations binOf (ConfNEventsMix cfgDepth2) (-1) [E1; E2; E3]
       ++ [(E4, E2); (E4, E3)]
  /\ processMixedEvent exampleEnv cfgDepth2 [E1; E2; E3; E4] []
     = processMixedEvent exampleEnv defaultConfig [E1; E2; E3; E4] [].
Proof.
  intros binOf.
  assert (Hbin : Forall (fun col => binOf col = 10%Z) [E1; E2; E3; E4]).
  { repeat constructor. }
  assert (Hprev : Forall (fun col => binOf col = 10%Z) [E1; E2; E3]).
  { repeat constructor. }
  split; [reflexivity | split; [| split; [| reflexivity]]].
  - apply (mixedEventPairs_window exampleEnv 10 [E1; E2; E3] E4); [lia | exact Hbin].
  - rewrite (selfCombinations_one_bin binOf 10 (-1) _ [E1; E2; E3; E4]),
      (selfCombinations_one_bin binOf 10 (-1) _ [E1; E2; E3]);
      [reflexivity | lia | exact Hprev | lia | exact Hbin].
Qed.

(** ** Calls a computation never makes *)

Lemma calls_app (f : Effect -> bool) (t1 t2 : list Effect) :
  calls f (t1 ++ t2) = (calls f t1 + calls f t2)%nat.
Proof. unfold calls. rewrite List.filter_app, List.length_app. reflexivity. Qed.

(** A predicate that selects covariance calls only finds none where there
    is no covariance call. *)
Lemma calls_none (f : Effect -> bool) (t : list Effect) :
  (forall e, f e = true -> isCov e = true) ->
  calls isCov t = 0%nat -> calls f t = 0%nat.
Proof.
  intros Hf. unfold calls. induction t as [| e t IH]; [reflexivity |].
  cbn [List.filter]. destruct (f e) eqn:He.
  - rewrite (Hf e He). cbn [length]. lia.
  - destruct (isCov e); cbn [length]; intros H; apply IH; lia.
Qed.

Section Avoids.
Import Dispatch.

Variable sel : Effect -> bool.

Lemma avoids_ret {A} (a : A) : avoids sel (mret a : Eff A).
Proof. intros s. split; reflexivity. Qed.

Lemma avoids_bind {A B} (m : Eff A) (f : A -> Eff B) :
  avoids sel m -> (forall a, avoids sel (f a)) -> avoids sel (m ≫= f).
Proof.
  intros Hm Hf s. rewrite run_bind.
  destruct (Hm s) as [Hcalls Hfatal].
  destruct (outcome (m s)) as [a | msg arg]; [| discriminate].
  destruct (Hf a (gens (m s))) as [Hcalls' Hfatal'].
  cbn [trace outcome]. rewrite calls_app, Hcalls, Hcalls'. split; [reflexivity | assumption].
Qed.

Lemma avoids_emit (e : Effect) : sel e = false -> avoids sel (emit e).
Proof.
  intros He s. split; [| reflexivity].
  unfold calls. cbn. rewrite He. reflexivity.
Qed.

Lemma avoids_when_ (b : bool) (m : Eff unit) : avoids sel m -> avoids sel (when_ b m).
Proof. intros Hm. destruct b; [exact Hm | apply avoids_ret]. Qed.

Lemma avoids_forM_ {A} (l : list A) (body : A -> Eff unit) :
  (forall x, avoids sel (body x)) -> avoids sel (forM_ l body).
Proof.
  intros Hbody. induction l as [| x l IH].
  - apply avoids_ret.
  - cbn [forM_]. apply avoids_bind; [apply Hbody | intros _; exact IH].
Qed.

Lemma avoids_if {A} (b : bool) (m1 m2 : Eff A) :
  avoids sel m1 -> avoids sel m2 -> avoids sel (if b then m1 else m2).
Proof. intros H1 H2. destruct b; assumption. Qed.

Lemma avoids_gate (cfg : Config) (particle_number : Z) (part : Particle) :
  particle_number = 1%Z \/ particle_number = 2%Z ->
  avoids sel (gate cfg particle_number part).
Proof.
  intros Hrole s.
  destruct (gate_answers cfg particle_number part s Hrole) as [ok ->].
  split; reflexivity.
Qed.

Lemma avoids_new_TRandom2 : avoids sel new_TRandom2.
Proof. intros s. split; reflexivity. Qed.

End Avoids.

(** Close a goal [avoids sel m] by structure of [m]; [known] closes the
    calls of functions that are not to be looked into. *)
Ltac avoids_steps_with known :=
  repeat first
    [ known
    | apply avoids_ret
    | apply avoids_emit; reflexivity
    | apply avoids_gate; (left; reflexivity) || (right; reflexivity)
    | apply avoids_new_TRandom2
    | apply avoids_when_
    | apply avoids_forM_; intros ?
    | apply avoids_if
    | apply avoids_bind; [| intros ?] ].

Ltac avoids_steps := avoids_steps_with fail.

(** ** The covariance entry point *)

Section Covariance.
Import Dispatch.

Variable env : Environment.
Variable cfg : Config.

Lemma doSameEvent_no_covariance (groupPartsOne groupPartsTwo parts : list Particle)
    (magFieldTesla : R) (multCol ContType : Z) (fillQA : bool) :
  avoids isCov (doSameEvent env cfg groupPartsOne groupPartsTwo parts magFieldTesla
             multCol ContType fillQA).
Proof.
  unfold doSameEvent. avoids_steps.
  - destruct x as [p1 p2]. unfold doSameEvent_pairPM. avoids_steps.
  - destruct x as [p1 p2]. unfold doSameEvent_pairIden, randgen_Rndm. avoids_steps.
Qed.

Lemma processSameEvent_no_covariance (col : Collision) (parts : list Particle) :
  avoids isCov (processSameEvent env cfg col parts).
Proof.
  unfold processSameEvent, fillCollision.
  avoids_steps_with ltac:(apply doSameEvent_no_covariance).
Qed.

Lemma doMixedEvent_no_covariance (groupPartsOne groupPartsTwo parts : list Particle)
    (magFieldTesla : R) (multCol ContType : Z) :
  avoids isCov (doMixedEvent env cfg groupPartsOne groupPartsTwo parts magFieldTesla
             multCol ContType).
Proof.
  unfold doMixedEvent. avoids_steps.
  destruct x as [p1 p2]. unfold doMixedEvent_pair. avoids_steps.
Qed.

Lemma processMixedEvent_no_covariance (cols : list Collision) (parts : list Particle) :
  avoids isCov (processMixedEvent env cfg cols parts).
Proof.
  unfold processMixedEvent. avoids_steps.
  destruct x as [collision1 collision2]. unfold processMixedEvent_pair.
  avoids_steps_with ltac:(apply doMixedEvent_no_covariance).
Qed.

Lemma processCov_run (col : Collision) (parts : list Particle) (s : nat) :
  processCov cfg col parts s = MkRun (covOfChannel cfg) s (Done tt).
Proof.
  unfold processCov, covOfChannel.
  destruct (cfgProcessMM cfg); [reflexivity |].
  destruct (cfgProcessPP cfg); [reflexivity |].
  destruct (cfgProcessPM cfg); reflexivity.
Qed.

Lemma forM_processCov_run {A} (cols : list Collision) (group : Collision -> A)
    (body : Collision -> A -> Eff unit) (t : list Effect) (s : nat) :
  (forall col s', body col (group col) s' = MkRun t s' (Done tt)) ->
  forM_ cols (fun col => body col (group col)) s
  = MkRun (concat (map (fun _ => t) cols)) s (Done tt).
Proof.
  intros Hbody. induction cols as [| col cols IH].
  - reflexivity.
  - cbn [forM_ map concat]. rewrite run_bind, Hbody. cbn [outcome gens trace].
    rewrite IH. reflexivity.
Qed.

Lemma calls_concat_const (f : Effect -> bool) (t : list Effect) {A} (l : list A) :
  calls f (concat (map (fun _ => t) l)) = (length l * calls f t)%nat.
Proof.
  induction l as [| x l IH]; [reflexivity |].
  cbn [map concat length]. rewrite calls_app, IH. lia.
Qed.

(** The covariance calls of a pass over a data frame: those of
    [processCov], once for every collision that passes the collision
    filter. *)
Lemma runDataFrame_cov_calls (f : Effect -> bool) (allCols : list Collision)
    (allParts : list Particle) (s : nat) :
  (forall e, f e = true -> isCov e = true) ->
  calls f (trace (runDataFrame env cfg allCols allParts s))
  = if doprocessCov cfg
    then (length (List.filter (collV0Mfilter cfg) allCols) * calls f (covOfChannel cfg))%nat
    else 0%nat.
Proof.
  intros Hf. unfold runDataFrame.
  set (cols := List.filter (collV0Mfilter cfg) allCols).
  set (parts := List.filter (trackAdditionalfilter cfg) allParts).
  set (same := when_ (doprocessSameEvent cfg) _).
  set (mixedEvents := when_ (doprocessMixedEvent cfg) _).
  assert (Hsame : avoids isCov same).
  { subst same. avoids_steps_with ltac:(apply processSameEvent_no_covariance). }
  assert (Hmixed : avoids isCov mixedEvents).
  { subst mixedEvents. avoids_steps_with ltac:(apply processMixedEvent_no_covariance). }
  rewrite run_bind. destruct (Hsame s) as [Hcalls Hfatal].
  destruct (outcome (same s)) as [[] | msg arg]; [| discriminate].
  cbn [trace]. rewrite calls_app, (calls_none f _ Hf Hcalls). cbn [Nat.add].
  rewrite run_bind.
  destruct (doprocessCov cfg); cbn [when_].
  - rewrite (forM_processCov_run cols _ (processCov cfg) (covOfChannel cfg))
      by (intros; apply processCov_run).
    cbn [outcome trace gens]. rewrite calls_app, calls_concat_const.
    destruct (Hmixed (gens (same s))) as [Hcalls' _].
    rewrite (calls_none f _ Hf Hcalls'). lia.
  - rewrite run_ret. cbn [outcome trace gens app].
    destruct (Hmixed (gens (same s))) as [Hcalls' _].
    apply (calls_none f _ Hf Hcalls').
Qed.

End Covariance.

Lemma isCovOf_isCov (c : Container) (e : Effect) : isCovOf c e = true -> isCov e = true.
Proof. destruct e; try discriminate. reflexivity. Qed.

Lemma collV0Mfilter_collisionOf (index : Z) (field : R) :
  collV0Mfilter defaultConfig (collisionOf index field) = true.
Proof. unfold collV0Mfilter. simpl. Rcompare; reflexivity || lra. Qed.

(** ** The same-sign loop as a whole *)

Section SameSignLoop.
Import Dispatch.

Lemma gate_admits (cfg : Config) (particle_number : Z) (part : Particle) (s : nat) :
  particle_number = 1%Z \/ particle_number = 2%Z ->
  outcome (gate cfg particle_number part s) = Done (admits cfg particle_number part).
Proof.
  intros Hrole. unfold admits.
  rewrite (gate_state_independent cfg particle_number part s 0%nat).
  destruct (gate_answers cfg particle_number part 0%nat Hrole) as [ok ->].
  reflexivity.
Qed.

Lemma calls_bind_avoids {A B} (sel : Effect -> bool) (m : Eff A) (k : A -> Eff B)
    (s : nat) :
  avoids sel m ->
  exists a, outcome (m s) = Done a
            /\ calls sel (trace ((m ≫= k) s)) = calls sel (trace (k a (gens (m s)))).
Proof.
  intros Hm. destruct (Hm s) as [Hcalls Hfatal]. rewrite run_bind.
  destruct (outcome (m s)) as [a | msg arg]; [| discriminate].
  exists a. split; [reflexivity |].
  cbn [trace]. rewrite calls_app, Hcalls. reflexivity.
Qed.

(** A loop whose body ends normally and makes one selected call for the
    elements that satisfy [w], none for the others, makes as many selected
    calls as there are such elements. *)
Lemma forM_calls {A} (sel : Effect -> bool) (w : A -> bool) (body : A -> Eff unit)
    (l : list A) (s : nat) :
  (forall x s', outcome (body x s') = Done tt
                /\ calls sel (trace (body x s')) = if w x then 1%nat else 0%nat) ->
  outcome (forM_ l body s) = Done tt
  /\ calls sel (trace (forM_ l body s)) = length (List.filter w l).
Proof.
  intros Hbody. revert s. induction l as [| x l IH]; intros s.
  - split; reflexivity.
  - cbn [forM_ List.filter]. rewrite run_bind.
    destruct (Hbody x s) as [Hdone Hcalls]. rewrite Hdone. cbn [outcome trace].
    destruct (IH (gens (body x s))) as [Hdone' Hcalls'].
    split; [exact Hdone' |].
    rewrite calls_app, Hcalls, Hcalls'. destruct (w x); reflexivity.
Qed.

Variable env : Environment.
Variable cfg : Config.

Lemma doSameEvent_pairIden_calls (parts : list Particle) (magFieldTesla : R)
    (multCol ContType : Z) (pr : Particle * Particle) (s : nat) :
  ContType = 2%Z \/ ContType = 3%Z ->
  let r := doSameEvent_pairIden env cfg parts magFieldTesla multCol ContType pr s in
  outcome r = Done tt
  /\ calls isNumDen (trace r)
     = if passesIden env cfg parts magFieldTesla pr then 1%nat else 0%nat.
Proof.
  intros HCont r. subst r. destruct pr as [p1 p2].
  unfold passesIden, doSameEvent_pairIden. cbn [fst snd].
  rewrite (bind_gate _ _ _ _ _ _ (gate_admits cfg 2 p1 s (or_intror eq_refl))).
  destruct (admits cfg 2 p1); cbn [negb andb]; [| split; reflexivity].
  rewrite (bind_gate _ _ _ _ _ _ (gate_admits cfg 2 p2 s (or_intror eq_refl))).
  destruct (admits cfg 2 p2); cbn [negb andb]; [| split; reflexivity].
  destruct (ConfIsCPR cfg && isClosePair env p1 p2 parts magFieldTesla same);
    cbn [negb andb]; [split; reflexivity |].
  destruct (isCleanPair env p1 p2 parts); cbn [negb]; [| split; reflexivity].
  rewrite run_bind. cbn [new_TRandom2 outcome trace gens app].
  destruct HCont as [-> | ->]; cbn [Z.eqb Pos.eqb].
  all: rewrite run_bind.
  all: change (randgen_Rndm (Rndm env) s (S s)) with (MkRun [] (S s) (Done (Rndm env s))).
  all: cbn [outcome trace gens app].
  all: unfold Rgtb, Rleb, Rltb.
  all: destruct (Rlt_dec 0.5 (Rndm env s)); [split; reflexivity |].
  all: destruct (Rle_dec (Rndm env s) 0.5); [split; reflexivity | lra].
Qed.

(** Over the whole same-sign loop of [doSameEvent] the container is filled
    once for every pair of the triangle that passes the gates: no pair is
    filled twice, none is dropped. *)
Lemma doSameEvent_iden_fill_count (groupPartsOne groupPartsTwo parts : list Particle)
    (magFieldTesla : R) (multCol ContType : Z) (fillQA : bool) (s : nat) :
  ContType = 2%Z \/ ContType = 3%Z ->
  let r := doSameEvent env cfg groupPartsOne groupPartsTwo parts magFieldTesla
             multCol ContType fillQA s in
  outcome r = Done tt
  /\ calls isNumDen (trace r)
     = length (List.filter (passesIden env cfg parts magFieldTesla)
                 (CombinationsStrictlyUpperIndexPolicy groupPartsOne groupPartsOne)).
Proof.
  intros HCont r. subst r. unfold doSameEvent.
  set (qaOne := when_ _ (forM_ groupPartsOne _)).
  set (qaTwo := when_ _ (forM_ groupPartsTwo _)).
  assert (HqaOne : avoids isNumDen qaOne) by (subst qaOne; avoids_steps).
  assert (HqaTwo : avoids isNumDen qaTwo) by (subst qaTwo; avoids_steps).
  assert (Hloop : (ContType =? 1)%Z = false) by (destruct HCont as [-> | ->]; reflexivity).
  rewrite Hloop. cbv iota.
  set (loop := forM_ _ _).
  destruct (calls_bind_avoids isNumDen qaOne (fun _ => qaTwo ;; loop) s HqaOne)
    as ([] & HdoneOne & HcallsOne).
  destruct (calls_bind_avoids isNumDen qaTwo (fun _ => loop) (gens (qaOne s)) HqaTwo)
    as ([] & HdoneTwo & HcallsTwo).
  rewrite HcallsOne, HcallsTwo.
  rewrite run_bind, HdoneOne. cbn [outcome].
  rewrite run_bind, HdoneTwo. cbn [outcome].
  subst loop. apply forM_calls. intros pr s'.
  apply doSameEvent_pairIden_calls. exact HCont.
Qed.

End SameSignLoop.

(** * Further properties of the particle identification *)

Section PIDCuts.
Import PID.

Lemma Rabs_le_Hypot_r (x y : R) : Rabs y <= Hypot x y.
Proof.
  unfold Hypot. rewrite <- (sqrt_Rsqr_abs y).
  apply sqrt_le_1_alt. unfold Rsqr. nra.
Qed.

Lemma Rabs_le_Hypot_l (x y : R) : Rabs x <= Hypot x y.
Proof.
  unfold Hypot. rewrite <- (sqrt_Rsqr_abs x).
  apply sqrt_le_1_alt. unfold Rsqr. nra.
Qed.

Lemma Hypot_nonneg (x y : R) : 0 <= Hypot x y.
Proof. unfold Hypot. apply sqrt_pos. Qed.

(** Pion admission follows the same two-region rule as proton admission,
    with the same thresholds: below [ConfTOFPtMin] the TPC cut, at or above
    it the combined cut.  The two functions agree on all inputs. *)
Theorem IsPionNSigma_two_regions (cfg : Config) (mom nsigmaTPCPi nsigmaTOFPi : R) :
  (IsPionNSigma cfg mom nsigmaTPCPi nsigmaTOFPi = true <->
     (mom < ConfTOFPtMin cfg /\ Rabs nsigmaTPCPi < ConfNsigmaTPC cfg) \/
     (ConfTOFPtMin cfg <= mom /\
      sqrt (nsigmaTPCPi * nsigmaTPCPi + nsigmaTOFPi * nsigmaTOFPi)
        < ConfNsigmaCombined cfg))
  /\ IsPionNSigma cfg mom nsigmaTPCPi nsigmaTOFPi
     = IsProtonNSigma cfg mom nsigmaTPCPi nsigmaTOFPi.
Proof.
  split; [| reflexivity].
  unfold IsPionNSigma, Hypot.
  rewrite (Rplus_comm (nsigmaTOFPi * nsigmaTOFPi)).
  destruct (Rltb mom (ConfTOFPtMin cfg)) eqn:Hmom.
  - apply Rltb_true in Hmom.
    destruct (Rltb (Rabs nsigmaTPCPi) (ConfNsigmaTPC cfg)) eqn:Htpc.
    + apply Rltb_true in Htpc. split; [intros _; left; split; assumption | reflexivity].
    + apply Rltb_false in Htpc. split; [discriminate |].
      intros [[_ H] | [H _]]; lra.
  - apply Rltb_false in Hmom.
    destruct (Rltb _ (ConfNsigmaCombined cfg)) eqn:Hcomb.
    + apply Rltb_true in Hcomb. split; [intros _; right; split; assumption | reflexivity].
    + apply Rltb_false in Hcomb. split; [discriminate |].
      intros [[H _] | [_ H]]; lra.
Qed.

(** No kaon is admitted at 3 sigma or more from the kaon hypothesis in the
    TPC, at any momentum; from momentum 0.55 on an admitted kaon is also
    within 3 sigma in the TOF. *)
Theorem IsKaonNSigma_within_three_sigma (mom nsigmaTPCK nsigmaTOFK : R) :
  IsKaonNSigma mom nsigmaTPCK nsigmaTOFK = true ->
  Rabs nsigmaTPCK < 3.0
  /\ (0.55 <= mom -> Rabs nsigmaTOFK < 3.0 /\ mom <> 1.5).
Proof.
  rewrite IsKaonNSigma_band. unfold kaonBand.
  repeat (destruct Rlt_dec); try discriminate.
  all: intros H.
  all: repeat match type of H with
         | (if ?b then true else false) = true => destruct b eqn:?; [| discriminate]
         end.
  all: repeat match goal with
         | Hb : _ && _ = true |- _ => apply andb_true_iff in Hb; destruct Hb
         | Hb : Rltb _ _ = true |- _ => apply Rltb_true in Hb
         end.
  all: split; [lra | intros; try lra; split; lra].
Qed.

Lemma IsKaonNSigma_admits_example : IsKaonNSigma 1.0 2.5 2.5 = true.
Proof. Rverdict. Qed.

Lemma IsKaonNSigma_within_three_sigma_witness :
  Rabs 2.5 < 3.0 /\ (0.55 <= 1.0 -> Rabs 2.5 < 3.0 /\ 1.0 <> 1.5).
Proof.
  apply (IsKaonNSigma_within_three_sigma 1.0 2.5 2.5).
  exact IsKaonNSigma_admits_example.
Defined.

(** Below momentum 0.55 kaon admission does not look at the TOF value: a
    track without a TOF signal is judged on the TPC alone. *)
Theorem IsKaonNSigma_TPC_only_below_055 (mom nsigmaTPCK nsigmaTOFK nsigmaTOFK' : R) :
  mom < 0.55 ->
  IsKaonNSigma mom nsigmaTPCK nsigmaTOFK = IsKaonNSigma mom nsigmaTPCK nsigmaTOFK'.
Proof.
  intros Hmom. rewrite !IsKaonNSigma_band. unfold kaonBand.
  repeat (destruct Rlt_dec); try reflexivity; lra.
Qed.

Lemma IsKaonNSigma_TPC_only_below_055_witness :
  IsKaonNSigma 0.5 0.5 0 = IsKaonNSigma 0.5 0.5 (-999).
Proof. apply IsKaonNSigma_TPC_only_below_055. lra. Defined.

(** Below [ConfTOFPtMin] proton and pion admission do not look at the TOF
    value. *)
Theorem TPC_only_below_ConfTOFPtMin (cfg : Config) (mom nsigmaTPC nsigmaTOF nsigmaTOF' : R) :
  mom < ConfTOFPtMin cfg ->
  IsProtonNSigma cfg mom nsigmaTPC nsigmaTOF = IsProtonNSigma cfg mom nsigmaTPC nsigmaTOF'
  /\ IsPionNSigma cfg mom nsigmaTPC nsigmaTOF = IsPionNSigma cfg mom nsigmaTPC nsigmaTOF'.
Proof.
  intros Hmom. apply Rltb_true in Hmom.
  unfold IsProtonNSigma, IsPionNSigma. rewrite Hmom. split; reflexivity.
Qed.

Lemma TPC_only_below_ConfTOFPtMin_witness :
  IsProtonNSigma defaultConfig 0.4 1.5 0 = IsProtonNSigma defaultConfig 0.4 1.5 (-999)
  /\ IsPionNSigma defaultConfig 0.4 1.5 0 = IsPionNSigma defaultConfig 0.4 1.5 (-999).
Proof. apply TPC_only_below_ConfTOFPtMin. simpl. lra. Defined.

(** At or above [ConfTOFPtMin] an admitted proton or pion is within
    [ConfNsigmaCombined] of the hypothesis in the TPC and in the TOF
    separately, so a track with a large TOF deviation (no TOF signal) is
    never admitted there; with a threshold that is not positive nothing is
    admitted there. *)
Theorem combined_cut_bounds_both (cfg : Config) (mom nsigmaTPC nsigmaTOF : R) :
  ConfTOFPtMin cfg <= mom ->
  IsProtonNSigma cfg mom nsigmaTPC nsigmaTOF = true
  \/ IsPionNSigma cfg mom nsigmaTPC nsigmaTOF = true ->
  Rabs nsigmaTPC < ConfNsigmaCombined cfg
  /\ Rabs nsigmaTOF < ConfNsigmaCombined cfg
  /\ 0 < ConfNsigmaCombined cfg.
Proof.
  intros Hmom Hadm.
  assert (H : Hypot nsigmaTOF nsigmaTPC < ConfNsigmaCombined cfg).
  { apply Rltb_false in Hmom.
    unfold IsProtonNSigma, IsPionNSigma in Hadm. rewrite Hmom in Hadm.
    apply Rltb_true.
    destruct (Rltb (Hypot nsigmaTOF nsigmaTPC) (ConfNsigmaCombined cfg));
      [reflexivity | destruct Hadm; discriminate]. }
  pose proof (Rabs_le_Hypot_r nsigmaTOF nsigmaTPC).
  pose proof (Rabs_le_Hypot_l nsigmaTOF nsigmaTPC).
  pose proof (Hypot_nonneg nsigmaTOF nsigmaTPC).
  repeat split; lra.
Qed.

Lemma IsProtonNSigma_admits_example : IsProtonNSigma defaultConfig 0.7 2.0 2.0 = true.
Proof.
  unfold IsProtonNSigma. simpl. pose proof Hypot_2_2. Rcompare; reflexivity || lra.
Qed.

Lemma combined_cut_bounds_both_witness :
  Rabs 2.0 < ConfNsigmaCombined defaultConfig
  /\ Rabs 2.0 < ConfNsigmaCombined defaultConfig
  /\ 0 < ConfNsigmaCombined defaultConfig.
Proof.
  apply (combined_cut_bounds_both defaultConfig 0.7 2.0 2.0).
  - simpl. lra.
  - left. exact IsProtonNSigma_admits_example.
Defined.

End PIDCuts.

(** * Further properties of the species dispatch *)

Section DispatchSymmetries.
Import PID Dispatch.
Local Open Scope Z_scope.

Lemma species_case_opp (code k : Z) :
  (- code =? k) || (- code =? - k) = (code =? k) || (code =? - k).
Proof.
  destruct (Z.eqb_spec (- code) k), (Z.eqb_spec (- code) (- k)),
    (Z.eqb_spec code k), (Z.eqb_spec code (- k)); simpl; try reflexivity; lia.
Qed.

(** A particle and its antiparticle are identified alike: changing the sign
    of both configured species codes changes no verdict of the dispatch, for
    any role. *)
Theorem IsParticleNSigma_antiparticle (cfg : Config) (one two particle_number : Z)
    (mom nsigmaTPCPr nsigmaTOFPr nsigmaTPCPi nsigmaTOFPi nsigmaTPCK nsigmaTOFK : R) :
  IsParticleNSigma (setPDGCodes (- one) (- two) cfg) particle_number mom
    nsigmaTPCPr nsigmaTOFPr nsigmaTPCPi nsigmaTOFPi nsigmaTPCK nsigmaTOFK
  = IsParticleNSigma (setPDGCodes one two cfg) particle_number mom
      nsigmaTPCPr nsigmaTOFPr nsigmaTPCPi nsigmaTOFPi nsigmaTPCK nsigmaTOFK.
Proof.
  unfold IsParticleNSigma. cbn [ConfPDGCodePartOne ConfPDGCodePartTwo setPDGCodes].
  change (-2212) with (- 2212). change (-211) with (- 211). change (-321) with (- 321).
  rewrite !species_case_opp. reflexivity.
Qed.

(** When both roles are configured with the same species code, the role
    passed to the dispatch makes no difference. *)
Theorem IsParticleNSigma_same_species_same_verdict (cfg : Config)
    (mom nsigmaTPCPr nsigmaTOFPr nsigmaTPCPi nsigmaTOFPi nsigmaTPCK nsigmaTOFK : R) :
  ConfPDGCodePartOne cfg = ConfPDGCodePartTwo cfg ->
  IsParticleNSigma cfg 1 mom nsigmaTPCPr nsigmaTOFPr nsigmaTPCPi nsigmaTOFPi
    nsigmaTPCK nsigmaTOFK
  = IsParticleNSigma cfg 2 mom nsigmaTPCPr nsigmaTOFPr nsigmaTPCPi nsigmaTOFPi
      nsigmaTPCK nsigmaTOFK.
Proof.
  intros Hcode. unfold IsParticleNSigma. cbn [Z.eqb Pos.eqb]. rewrite Hcode.
  reflexivity.
Qed.

Lemma IsParticleNSigma_same_species_same_verdict_witness :
  IsParticleNSigma defaultConfig 1 0.4 0 0 0.5 0.5 0 0
  = IsParticleNSigma defaultConfig 2 0.4 0 0 0.5 0.5 0 0.
Proof. apply IsParticleNSigma_same_species_same_verdict. reflexivity. Defined.

End DispatchSymmetries.

(** * Counting and constraining the calls of a computation *)

Section Counting.
Import Dispatch.

Variable sel : Effect -> bool.

Lemma counts_ret : counts sel (mret tt) 0.
Proof. intros s. split; reflexivity. Qed.

Lemma counts_emit (e : Effect) : counts sel (emit e) (if sel e then 1 else 0)%nat.
Proof.
  intros s. split; [reflexivity |]. unfold calls. cbn.
  destruct (sel e); reflexivity.
Qed.

Lemma counts_seq (m k : Eff unit) (n1 n2 : nat) :
  counts sel m n1 -> counts sel k n2 -> counts sel (m ;; k) (n1 + n2).
Proof.
  intros Hm Hk s. rewrite run_bind.
  destruct (Hm s) as [Hdone Hcalls]. rewrite Hdone.
  destruct (Hk (gens (m s))) as [Hdone' Hcalls'].
  cbn [outcome trace]. rewrite calls_app, Hcalls, Hcalls'.
  split; [exact Hdone' | reflexivity].
Qed.

Lemma counts_when_ (b : bool) (m : Eff unit) (n : nat) :
  counts sel m n -> counts sel (when_ b m) (if b then n else 0).
Proof. intros Hm. destruct b; [exact Hm | apply counts_ret]. Qed.

Lemma counts_eq (m : Eff unit) (n n' : nat) :
  counts sel m n -> n = n' -> counts sel m n'.
Proof. intros Hm <-. exact Hm. Qed.

Lemma counts_forM_ {A} (w : A -> bool) (body : A -> Eff unit) (l : list A) :
  (forall x, counts sel (body x) (if w x then 1 else 0)) ->
  counts sel (forM_ l body) (length (List.filter w l)).
Proof.
  intros Hbody s. apply forM_calls. intros x s'. apply Hbody.
Qed.

Lemma counts_gate (cfg : Config) (particle_number : Z) (part : Particle)
    (f : bool -> Eff unit) (n : nat) :
  particle_number = 1%Z \/ particle_number = 2%Z ->
  counts sel (f (admits cfg particle_number part)) n ->
  counts sel (gate cfg particle_number part ≫= f) n.
Proof.
  intros Hrole Hf s.
  rewrite (bind_gate _ _ _ _ _ _ (gate_admits cfg particle_number part s Hrole)).
  apply Hf.
Qed.

Lemma counts_of_avoids (m : Eff unit) : avoids sel m -> counts sel m 0.
Proof.
  intros Hm s. destruct (Hm s) as [Hcalls Hfatal]. split; [| exact Hcalls].
  destruct (outcome (m s)) as [[] | msg arg]; [reflexivity | discriminate].
Qed.

End Counting.

Section EmitsOnly.
Import Dispatch.

Variable ok : Effect -> bool.

Lemma emitsOnly_ret {A} (a : A) : emitsOnly ok (mret a : Eff A).
Proof. intros s. constructor. Qed.

Lemma emitsOnly_emit (e : Effect) : ok e = true -> emitsOnly ok (emit e).
Proof. intros He s. repeat constructor. exact He. Qed.

Lemma emitsOnly_bind {A B} (m : Eff A) (f : A -> Eff B) :
  emitsOnly ok m -> (forall a, emitsOnly ok (f a)) -> emitsOnly ok (m ≫= f).
Proof.
  intros Hm Hf s. rewrite run_bind.
  destruct (outcome (m s)) as [a | msg arg]; cbn [trace].
  - apply Forall_app. split; [apply Hm | apply Hf].
  - apply Hm.
Qed.

Lemma emitsOnly_when_ (b : bool) (m : Eff unit) :
  (b = true -> emitsOnly ok m) -> emitsOnly ok (when_ b m).
Proof. intros Hm. destruct b; [apply Hm; reflexivity | apply emitsOnly_ret]. Qed.

Lemma emitsOnly_forM_ {A} (l : list A) (body : A -> Eff unit) :
  (forall x, In x l -> emitsOnly ok (body x)) -> emitsOnly ok (forM_ l body).
Proof.
  induction l as [| x l IH]; intros Hbody.
  - apply emitsOnly_ret.
  - cbn [forM_]. apply emitsOnly_bind.
    + apply Hbody. left. reflexivity.
    + intros _. apply IH. intros y Hy. apply Hbody. right. exact Hy.
Qed.

Lemma emitsOnly_gate {B} (cfg : Config) (particle_number : Z) (part : Particle)
    (f : bool -> Eff B) :
  (forall b, emitsOnly ok (f b)) -> emitsOnly ok (gate cfg particle_number part ≫= f).
Proof.
  intros Hf. apply emitsOnly_bind; [| exact Hf].
  intros s. rewrite gate_run. constructor.
Qed.

End EmitsOnly.

(** ** Membership in the sequences of pairs *)

Lemma In_Full {A B} (setA : list A) (setB : list B) (a : A) (b : B) :
  In (a, b) (CombinationsFullIndexPolicy setA setB) -> In a setA /\ In b setB.
Proof.
  unfold CombinationsFullIndexPolicy. rewrite in_flat_map.
  intros (a' & Ha & Hb). apply in_map_iff in Hb as (b' & Heq & Hb).
  inversion Heq; subst. split; assumption.
Qed.

Lemma In_StrictlyUpper {A} (setA : list A) (a b : A) :
  In (a, b) (CombinationsStrictlyUpperIndexPolicy setA setA) -> In a setA /\ In b setA.
Proof.
  induction setA as [| x l IH]; [intros [] |].
  rewrite StrictlyUpper_cons, in_app_iff. intros [H | H].
  - apply in_map_iff in H as (b' & Heq & Hb). inversion Heq; subst.
    split; [left; reflexivity | right; exact Hb].
  - destruct (IH H). split; right; assumption.
Qed.

(** * The process functions as a whole *)

Section Generators.

Variable sel : Effect -> bool.

Lemma counts_new_TRandom2 (f : nat -> Eff unit) (n : nat) :
  (forall randgen, counts sel (f randgen) n) -> counts sel (new_TRandom2 ≫= f) n.
Proof. intros Hf s. rewrite run_bind. cbn. exact (Hf s (S s)). Qed.

Lemma counts_Rndm (draws : nat -> R) (randgen : nat) (f : R -> Eff unit) (n : nat) :
  (forall rand, counts sel (f rand) n) ->
  counts sel (randgen_Rndm draws randgen ≫= f) n.
Proof. intros Hf s. rewrite (run_bind_pure _ _ s (draws randgen)); [apply Hf | reflexivity]. Qed.

End Generators.

Section SameEventCounts.
Import Dispatch.

Variable env : Environment.
Variable cfg : Config.

Lemma doSameEvent_pairPM_counts (parts : list Particle) (magFieldTesla : R)
    (multCol : Z) (pr : Particle * Particle) :
  counts isNumDen (doSameEvent_pairPM env cfg parts magFieldTesla multCol pr)
         (if passesPM env cfg parts magFieldTesla pr then 1 else 0).
Proof.
  destruct pr as [p1 p2]. unfold doSameEvent_pairPM, passesPM. cbn [fst snd].
  apply counts_gate; [left; reflexivity |].
  destruct (admits cfg 1 p1); cbn [negb andb]; [| apply counts_ret].
  apply counts_gate; [right; reflexivity |].
  destruct (admits cfg 2 p2); cbn [negb andb]; [| apply counts_ret].
  destruct (ConfIsCPR cfg && isClosePair env p1 p2 parts magFieldTesla same);
    cbn [negb andb]; [apply counts_ret |].
  destruct (isCleanPair env p1 p2 parts); cbn [negb]; [| apply counts_ret].
  apply (counts_emit isNumDen).
Qed.

Lemma draw_fills_once (rand : R) (m1 m2 : Eff unit) :
  counts isNumDen m1 1 -> counts isNumDen m2 1 ->
  counts isNumDen (if Rgtb rand 0.5 then m1 else if Rleb rand 0.5 then m2 else mret tt) 1.
Proof.
  intros H1 H2. unfold Rgtb, Rltb, Rleb.
  destruct (Rlt_dec 0.5 rand); [exact H1 |].
  destruct (Rle_dec rand 0.5); [exact H2 | lra].
Qed.

Lemma doSameEvent_pairIden_counts (parts : list Particle) (magFieldTesla : R)
    (multCol ContType : Z) (pr : Particle * Particle) :
  counts isNumDen (doSameEvent_pairIden env cfg parts magFieldTesla multCol ContType pr)
         (if ((ContType =? 2)%Z || (ContType =? 3)%Z)
             && passesIden env cfg parts magFieldTesla pr then 1 else 0).
Proof.
  destruct pr as [p1 p2]. unfold doSameEvent_pairIden, passesIden. cbn [fst snd].
  assert (Hnone : forall b : bool, (if b && false then 1 else 0)%nat = 0%nat)
    by (intros []; reflexivity).
  apply counts_gate; [right; reflexivity |].
  destruct (admits cfg 2 p1); cbn [negb andb];
    [| rewrite Hnone; apply counts_ret].
  apply counts_gate; [right; reflexivity |].
  destruct (admits cfg 2 p2); cbn [negb andb];
    [| rewrite Hnone; apply counts_ret].
  destruct (ConfIsCPR cfg && isClosePair env p1 p2 parts magFieldTesla same);
    cbn [negb andb]; [rewrite Hnone; apply counts_ret |].
  destruct (isCleanPair env p1 p2 parts); cbn [negb];
    [| rewrite Hnone; apply counts_ret].
  rewrite andb_true_r.
  apply counts_new_TRandom2. intros randgen.
  destruct (ContType =? 2)%Z; cbn [orb].
  - apply counts_Rndm. intros rand.
    apply draw_fills_once; apply (counts_emit isNumDen).
  - destruct (ContType =? 3)%Z.
    + apply counts_Rndm. intros rand.
      apply draw_fills_once; apply (counts_emit isNumDen).
    + apply counts_ret.
Qed.

Lemma QA_loops_no_pair_fill (groupPartsOne groupPartsTwo : list Particle)
    (b1 b2 : bool) (k : Eff unit) (n : nat) :
  counts isNumDen k n ->
  counts isNumDen
    (when_ b1
       (forM_ groupPartsOne (fun part =>
          ok ← gate cfg 1 part;
          if negb ok then mret tt else emit (trackHistoPartOne_fillQA part))) ;;
     when_ b2
       (forM_ groupPartsTwo (fun part =>
          ok ← gate cfg 2 part;
          if negb ok then mret tt else emit (trackHistoPartTwo_fillQA part))) ;;
     k) n.
Proof.
  intros Hk.
  apply (counts_seq isNumDen _ _ 0 n); [apply counts_of_avoids; avoids_steps |].
  apply (counts_seq isNumDen _ _ 0 n); [apply counts_of_avoids; avoids_steps |].
  exact Hk.
Qed.

(** The pair fills of one call of [doSameEvent]: for the opposite-sign
    channel the pairs of the cross product that pass its gates, for the two
    same-sign channels the pairs of the triangle that pass theirs, and none
    for any other channel number. *)
Lemma doSameEvent_counts (groupPartsOne groupPartsTwo parts : list Particle)
    (magFieldTesla : R) (multCol ContType : Z) (fillQA : bool) :
  counts isNumDen
    (doSameEvent env cfg groupPartsOne groupPartsTwo parts magFieldTesla multCol
       ContType fillQA)
    (if (ContType =? 1)%Z then
       length (List.filter (passesPM env cfg parts magFieldTesla)
                 (CombinationsFullIndexPolicy groupPartsOne groupPartsTwo))
     else
       length (List.filter
                 (fun pr => ((ContType =? 2)%Z || (ContType =? 3)%Z)
                            && passesIden env cfg parts magFieldTesla pr)
                 (CombinationsStrictlyUpperIndexPolicy groupPartsOne groupPartsOne))).
Proof.
  unfold doSameEvent. apply QA_loops_no_pair_fill.
  destruct (ContType =? 1)%Z.
  - apply counts_forM_. intros pr. apply doSameEvent_pairPM_counts.
  - apply counts_forM_. intros pr. apply doSameEvent_pairIden_counts.
Qed.

End SameEventCounts.

Section ProcessSameEvent.
Import Dispatch.

Variable env : Environment.
Variable cfg : Config.

Lemma fillCollision_counts (sel : Effect -> bool) (col : Collision) :
  sel (hSECollisionBins_fill (colBinning_getBin env (posZ col) (multNtr col))) = false ->
  sel (eventHisto_fillQA col) = false ->
  counts sel (fillCollision env col) 0.
Proof.
  intros H1 H2. unfold fillCollision.
  apply (counts_eq sel _ (0 + 0) 0); [| reflexivity].
  apply counts_seq.
  - pose proof (counts_emit sel (hSECollisionBins_fill
                  (colBinning_getBin env (posZ col) (multNtr col)))) as H.
    rewrite H1 in H. exact H.
  - pose proof (counts_emit sel (eventHisto_fillQA col)) as H.
    rewrite H2 in H. exact H.
Qed.

(** The pair fills of one collision.  [processSameEvent] ends normally and
    fills, for every enabled channel, one pair for every candidate pair
    that passes the gates of the channel: the cross product of the two
    slices for opposite signs, the triangle of slice one for positive
    pairs, the triangle of slice two for negative pairs. *)
Theorem processSameEvent_fill_count (col : Collision) (parts : list Particle) (s : nat) :
  let one := sliceByCached (partsOne env cfg parts) (globalIndex col) in
  let two := sliceByCached (partsTwo env cfg parts) (globalIndex col) in
  let passed := fun passes pairs => length (List.filter passes pairs) in
  let r := processSameEvent env cfg col parts s in
  outcome r = Done tt
  /\ calls isNumDen (trace r)
     = ((if cfgProcessPM cfg
         then passed (passesPM env cfg parts (magField col))
                     (CombinationsFullIndexPolicy one two) else 0)
        + ((if cfgProcessPP cfg
            then passed (passesIden env cfg parts (magField col))
                        (CombinationsStrictlyUpperIndexPolicy one one) else 0)
           + (if cfgProcessMM cfg
              then passed (passesIden env cfg parts (magField col))
                          (CombinationsStrictlyUpperIndexPolicy two two) else 0)))%nat.
Proof.
  intros one two passed r. subst r. revert s.
  change (counts isNumDen (processSameEvent env cfg col parts)
            ((if cfgProcessPM cfg
              then passed (passesPM env cfg parts (magField col))
                          (CombinationsFullIndexPolicy one two) else 0)
             + ((if cfgProcessPP cfg
                 then passed (passesIden env cfg parts (magField col))
                             (CombinationsStrictlyUpperIndexPolicy one one) else 0)
                + (if cfgProcessMM cfg
                   then passed (passesIden env cfg parts (magField col))
                               (CombinationsStrictlyUpperIndexPolicy two two) else 0)))).
  unfold processSameEvent. fold one two.
  apply (counts_seq isNumDen _ _ 0); [apply fillCollision_counts; reflexivity |].
  apply counts_seq; [| apply counts_seq].
  - apply counts_when_. apply (doSameEvent_counts env cfg one two).
  - apply counts_when_. apply (doSameEvent_counts env cfg one one _ _ _ 2).
  - apply counts_when_. apply (doSameEvent_counts env cfg two two _ _ _ 3).
Qed.

Lemma QA_loop_one_counts (group : list Particle) :
  counts isQAOne
    (forM_ group (fun part =>
       ok ← gate cfg 1 part;
       if negb ok then mret tt else emit (trackHistoPartOne_fillQA part)))
    (length (List.filter (admits cfg 1) group)).
Proof.
  apply counts_forM_. intros part.
  apply counts_gate; [left; reflexivity |].
  destruct (admits cfg 1 part); cbn [negb];
    [apply (counts_emit isQAOne) | apply counts_ret].
Qed.

Lemma QA_loop_two_counts (group : list Particle) :
  counts isQATwo
    (forM_ group (fun part =>
       ok ← gate cfg 2 part;
       if negb ok then mret tt else emit (trackHistoPartTwo_fillQA part)))
    (length (List.filter (admits cfg 2) group)).
Proof.
  apply counts_forM_. intros part.
  apply counts_gate; [right; reflexivity |].
  destruct (admits cfg 2 part); cbn [negb];
    [apply (counts_emit isQATwo) | apply counts_ret].
Qed.

Lemma pair_loops_no_QA (sel : Effect -> bool) (groupPartsOne groupPartsTwo
    parts : list Particle) (magFieldTesla : R) (multCol ContType : Z) :
  (forall c p1 p2 ev maxl mult kT, sel (fill_mult_NumDen c p1 p2 ev maxl mult kT) = false) ->
  counts sel
    (if (ContType =? 1)%Z then
       forM_ (CombinationsFullIndexPolicy groupPartsOne groupPartsTwo)
             (doSameEvent_pairPM env cfg parts magFieldTesla multCol)
     else
       forM_ (CombinationsStrictlyUpperIndexPolicy groupPartsOne groupPartsOne)
             (doSameEvent_pairIden env cfg parts magFieldTesla multCol ContType)) 0.
Proof.
  intros Hsel. apply counts_of_avoids.
  apply avoids_if; apply avoids_forM_; intros [p1 p2].
  - unfold doSameEvent_pairPM.
    avoids_steps_with ltac:(apply avoids_emit; apply Hsel).
  - unfold doSameEvent_pairIden, randgen_Rndm.
    avoids_steps_with ltac:(apply avoids_emit; apply Hsel).
Qed.

Lemma doSameEvent_QA_counts (groupPartsOne groupPartsTwo parts : list Particle)
    (magFieldTesla : R) (multCol ContType : Z) (fillQA : bool) :
  counts isQAOne
    (doSameEvent env cfg groupPartsOne groupPartsTwo parts magFieldTesla multCol
       ContType fillQA)
    (if ((ContType =? 1)%Z || (ContType =? 2)%Z) && fillQA
     then length (List.filter (admits cfg 1) groupPartsOne) else 0)
  /\ counts isQATwo
       (doSameEvent env cfg groupPartsOne groupPartsTwo parts magFieldTesla multCol
          ContType fillQA)
       (if ((ContType =? 1)%Z || (ContType =? 3)%Z) && fillQA
        then length (List.filter (admits cfg 2) groupPartsTwo) else 0).
Proof.
  unfold doSameEvent. split.
  - eapply counts_eq.
    + apply counts_seq; [apply counts_when_, QA_loop_one_counts |].
      apply (counts_seq isQAOne _ _ 0 0);
        [apply counts_of_avoids; avoids_steps | apply pair_loops_no_QA; reflexivity].
    + cbn. lia.
  - eapply counts_eq.
    + apply (counts_seq isQATwo _ _ 0); [apply counts_of_avoids; avoids_steps |].
      apply counts_seq; [apply counts_when_, QA_loop_two_counts |].
      apply pair_loops_no_QA; reflexivity.
    + cbn. lia.
Qed.

(** The track QA of one collision.  Every call of [doSameEvent] is made
    with [fillQA] set, so a track of slice one that fits the species of
    particle one is counted in the QA of particle one once for the
    opposite-sign channel and once more for the positive channel, and a track
    of slice two likewise for the opposite-sign and the negative channel:
    with the opposite-sign channel enabled next to a same-sign channel the
    QA histogram of that particle holds every track twice. *)
Theorem processSameEvent_QA_count (col : Collision) (parts : list Particle) (s : nat) :
  let one := sliceByCached (partsOne env cfg parts) (globalIndex col) in
  let two := sliceByCached (partsTwo env cfg parts) (globalIndex col) in
  let times := fun b : bool => if b then 1%nat else 0%nat in
  let t := trace (processSameEvent env cfg col parts s) in
  calls isQAOne t
  = ((times (cfgProcessPM cfg) + times (cfgProcessPP cfg))
     * length (List.filter (admits cfg 1) one))%nat
  /\ calls isQATwo t
     = ((times (cfgProcessPM cfg) + times (cfgProcessMM cfg))
        * length (List.filter (admits cfg 2) two))%nat.
Proof.
  intros one two times t. subst t.
  assert (H1 : counts isQAOne (processSameEvent env cfg col parts)
                 ((times (cfgProcessPM cfg) + times (cfgProcessPP cfg))
                  * length (List.filter (admits cfg 1) one))).
  { unfold processSameEvent. fold one two. eapply counts_eq.
    - apply (counts_seq isQAOne _ _ 0); [apply fillCollision_counts; reflexivity |].
      apply counts_seq; [| apply counts_seq].
      + apply counts_when_. apply (doSameEvent_QA_counts one two).
      + apply counts_when_. apply (doSameEvent_QA_counts one one _ _ _ 2).
      + apply counts_when_. apply (doSameEvent_QA_counts two two _ _ _ 3).
    - cbn. destruct (cfgProcessPM cfg), (cfgProcessPP cfg), (cfgProcessMM cfg);
        cbn; lia. }
  assert (H2 : counts isQATwo (processSameEvent env cfg col parts)
                 ((times (cfgProcessPM cfg) + times (cfgProcessMM cfg))
                  * length (List.filter (admits cfg 2) two))).
  { unfold processSameEvent. fold one two. eapply counts_eq.
    - apply (counts_seq isQATwo _ _ 0); [apply fillCollision_counts; reflexivity |].
      apply counts_seq; [| apply counts_seq].
      + apply counts_when_. apply (doSameEvent_QA_counts one two).
      + apply counts_when_. apply (doSameEvent_QA_counts one one _ _ _ 2).
      + apply counts_when_. apply (doSameEvent_QA_counts two two _ _ _ 3).
    - cbn. destruct (cfgProcessPM cfg), (cfgProcessPP cfg), (cfgProcessMM cfg);
        cbn; lia. }
  split; [apply H1 | apply H2].
Qed.

End ProcessSameEvent.

Section ProcessMixedEvent.
Import Dispatch.

Variable env : Environment.
Variable cfg : Config.

Lemma doMixedEvent_pair_counts (parts : list Particle) (magFieldTesla : R)
    (multCol ContType : Z) (pr : Particle * Particle) :
  counts isNumDen (doMixedEvent_pair env cfg parts magFieldTesla multCol ContType pr)
         (if ((ContType =? 1)%Z || (ContType =? 2)%Z || (ContType =? 3)%Z)
             && passesMixed env cfg parts magFieldTesla pr then 1 else 0).
Proof.
  destruct pr as [p1 p2]. unfold doMixedEvent_pair, passesMixed. cbn [fst snd].
  assert (Hnone : forall b : bool, (if b && false then 1 else 0)%nat = 0%nat)
    by (intros []; reflexivity).
  apply counts_gate; [right; reflexivity |].
  destruct (admits cfg 2 p1); cbn [negb andb];
    [| rewrite Hnone; apply counts_ret].
  apply counts_gate; [right; reflexivity |].
  destruct (admits cfg 2 p2); cbn [negb andb];
    [| rewrite Hnone; apply counts_ret].
  destruct (ConfIsCPR cfg && isClosePair env p1 p2 parts magFieldTesla mixed);
    cbn [negb andb]; [rewrite Hnone; apply counts_ret |].
  rewrite andb_true_r.
  destruct (ContType =? 1)%Z; cbn [orb]; [apply (counts_emit isNumDen) |].
  destruct (ContType =? 2)%Z; cbn [orb]; [apply (counts_emit isNumDen) |].
  destruct (ContType =? 3)%Z; [apply (counts_emit isNumDen) | apply counts_ret].
Qed.

(** The pair fills of one call of [doMixedEvent].  It ends normally and
    fills one pair for every pair of the cross product of the two groups
    whose particles both fit the species of particle two and that the
    close-pair rejection lets through; no pair cleaning is applied.  For a
    channel number other than 1, 2 or 3 it fills nothing. *)
Theorem doMixedEvent_fill_count (groupPartsOne groupPartsTwo parts : list Particle)
    (magFieldTesla : R) (multCol ContType : Z) (s : nat) :
  let r := doMixedEvent env cfg groupPartsOne groupPartsTwo parts magFieldTesla
             multCol ContType s in
  outcome r = Done tt
  /\ calls isNumDen (trace r)
     = if (ContType =? 1)%Z || (ContType =? 2)%Z || (ContType =? 3)%Z
       then length (List.filter (passesMixed env cfg parts magFieldTesla)
                      (CombinationsFullIndexPolicy groupPartsOne groupPartsTwo))
       else 0%nat.
Proof.
  intros r. subst r. unfold doMixedEvent.
  pose proof (counts_forM_ isNumDen
                (fun pr => ((ContType =? 1)%Z || (ContType =? 2)%Z || (ContType =? 3)%Z)
                           && passesMixed env cfg parts magFieldTesla pr)
                (doMixedEvent_pair env cfg parts magFieldTesla multCol ContType)
                (CombinationsFullIndexPolicy groupPartsOne groupPartsTwo)
                (doMixedEvent_pair_counts parts magFieldTesla multCol ContType) s)
    as [Hdone Hcalls].
  split; [exact Hdone |]. rewrite Hcalls. clear Hdone Hcalls.
  destruct ((ContType =? 1)%Z || (ContType =? 2)%Z || (ContType =? 3)%Z); cbn [andb].
  - reflexivity.
  - induction (CombinationsFullIndexPolicy groupPartsOne groupPartsTwo) as [| pr l IH];
      [reflexivity | exact IH].
Qed.

Lemma doMixedEvent_avoids (sel : Effect -> bool)
    (groupPartsOne groupPartsTwo parts : list Particle)
    (magFieldTesla : R) (multCol ContType : Z) :
  (forall c p1 p2 ev maxl mult kT, sel (fill_mult_NumDen c p1 p2 ev maxl mult kT) = false) ->
  avoids sel (doMixedEvent env cfg groupPartsOne groupPartsTwo parts magFieldTesla
                multCol ContType).
Proof.
  intros Hsel. unfold doMixedEvent. apply avoids_forM_. intros [p1 p2].
  unfold doMixedEvent_pair.
  avoids_steps_with ltac:(apply avoids_emit; apply Hsel).
Qed.

Lemma processMixedEvent_pair_QA (parts : list Particle) (pr : Collision * Collision) :
  counts isMixingQA (processMixedEvent_pair env cfg parts pr) 1.
Proof.
  destruct pr as [collision1 collision2]. unfold processMixedEvent_pair.
  apply (counts_seq isMixingQA _ _ 1 0); [apply (counts_emit isMixingQA) |].
  apply counts_of_avoids.
  avoids_steps_with ltac:(apply doMixedEvent_avoids; reflexivity).
Qed.

(** The mixing QA counts collision pairs, not mixed pairs: whatever the
    channels and the fields, [processMixedEvent] ends normally and fills
    [MixingQA/hMECollisionBins] once for every collision pair the
    combination generator delivers, those it then skips included. *)
Theorem processMixedEvent_QA_count (cols : list Collision) (parts : list Particle)
    (s : nat) :
  let r := processMixedEvent env cfg cols parts s in
  outcome r = Done tt
  /\ calls isMixingQA (trace r) = length (mixedEventPairs env cols).
Proof.
  intros r. subst r. unfold processMixedEvent.
  destruct (counts_forM_ isMixingQA (fun _ => true)
              (processMixedEvent_pair env cfg parts) (mixedEventPairs env cols)
              (processMixedEvent_pair_QA parts) s) as [Hdone Hcalls].
  split; [exact Hdone |]. rewrite Hcalls. clear Hdone Hcalls. f_equal.
  induction (mixedEventPairs env cols) as [| pr l IH]; [reflexivity |].
  cbn [List.filter]. rewrite IH. reflexivity.
Qed.

(** The fatal report of the species dispatch cannot be reached from the
    process functions: whatever the configuration and the tables, each of
    them ends normally. *)
Theorem process_functions_end_normally (col : Collision) (cols : list Collision)
    (parts : list Particle) (s : nat) :
  outcome (processSameEvent env cfg col parts s) = Done tt
  /\ outcome (processMixedEvent env cfg cols parts s) = Done tt
  /\ outcome (processCov cfg col parts s) = Done tt
  /\ outcome (processSameEventMC env cfg col parts s) = Done tt
  /\ outcome (processMixedEventMC env cols parts s) = Done tt.
Proof.
  split; [| split; [| split; [| split]]].
  - apply (counts_of_avoids isCov), processSameEvent_no_covariance.
  - apply (counts_of_avoids isCov), processMixedEvent_no_covariance.
  - rewrite processCov_run. reflexivity.
  - reflexivity.
  - unfold processMixedEventMC.
    apply (counts_of_avoids isCov). apply avoids_forM_. intros [c1 c2].
    unfold processMixedEventMC_pair. avoids_steps.
Qed.

End ProcessMixedEvent.

(** * Where the filled pairs come from *)

Lemma emitsOnly_new_TRandom2 (ok : Effect -> bool) : emitsOnly ok new_TRandom2.
Proof. intros s. constructor. Qed.

(** Close a goal [emitsOnly ok m] by structure of [m], leaving the calls
    made. *)
Ltac emitsOnly_steps :=
  repeat first
    [ apply emitsOnly_ret
    | apply emitsOnly_new_TRandom2
    | apply emitsOnly_gate; intros ?
    | apply emitsOnly_bind; [| intros ?]
    | match goal with
      | |- emitsOnly _ (if ?b then _ else _) => destruct b eqn:?
      end
    | apply emitsOnly_emit ].

Section Provenance.
Import Dispatch.

Variable env : Environment.
Variable cfg : Config.

Lemma partsOne_filter (parts : list Particle) :
  partsOne env cfg parts = List.filter (isPartOne env cfg) parts.
Proof. reflexivity. Qed.

Lemma partsTwo_filter (parts : list Particle) :
  partsTwo env cfg parts = List.filter (isPartTwo env cfg) parts.
Proof. reflexivity. Qed.

Lemma In_slice_one (parts : list Particle) (index : Z) (part : Particle) :
  In part (sliceByCached (partsOne env cfg parts) index) ->
  isPartOne env cfg part = true /\ (fdCollisionId part =? index)%Z = true.
Proof.
  unfold sliceByCached. rewrite partsOne_filter, !filter_In.
  intros [[_ H1] H2]. split; assumption.
Qed.

Lemma In_slice_two (parts : list Particle) (index : Z) (part : Particle) :
  In part (sliceByCached (partsTwo env cfg parts) index) ->
  isPartTwo env cfg part = true /\ (fdCollisionId part =? index)%Z = true.
Proof.
  unfold sliceByCached. rewrite partsTwo_filter, !filter_In.
  intros [[_ H1] H2]. split; assumption.
Qed.

Lemma doSameEvent_emitsOnly (ok : Effect -> bool)
    (groupPartsOne groupPartsTwo parts : list Particle)
    (magFieldTesla : R) (multCol ContType : Z) (fillQA : bool) :
  (forall part, ok (trackHistoPartOne_fillQA part) = true) ->
  (forall part, ok (trackHistoPartTwo_fillQA part) = true) ->
  (ContType = 1%Z -> forall p1 p2 kT, In p1 groupPartsOne -> In p2 groupPartsTwo ->
     ok (fill_mult_NumDen sameEventMultCont p1 p2 same 2 multCol kT) = true) ->
  (ContType = 2%Z -> forall p1 p2 kT, In p1 groupPartsOne -> In p2 groupPartsOne ->
     ok (fill_mult_NumDen sameEventMultContPP p1 p2 same 2 multCol kT) = true) ->
  (ContType = 3%Z -> forall p1 p2 kT, In p1 groupPartsOne -> In p2 groupPartsOne ->
     ok (fill_mult_NumDen sameEventMultContMM p1 p2 same 2 multCol kT) = true) ->
  emitsOnly ok (doSameEvent env cfg groupPartsOne groupPartsTwo parts magFieldTesla
                  multCol ContType fillQA).
Proof.
  intros HqaOne HqaTwo HPM HPP HMM. unfold doSameEvent.
  apply emitsOnly_bind; [| intros _; apply emitsOnly_bind; [| intros _]].
  - apply emitsOnly_when_. intros _. apply emitsOnly_forM_. intros part _.
    emitsOnly_steps. apply HqaOne.
  - apply emitsOnly_when_. intros _. apply emitsOnly_forM_. intros part _.
    emitsOnly_steps. apply HqaTwo.
  - destruct (Z.eqb_spec ContType 1) as [H1 | H1].
    + apply emitsOnly_forM_. intros [p1 p2] Hin. apply In_Full in Hin as [Hin1 Hin2].
      unfold doSameEvent_pairPM. emitsOnly_steps. apply HPM; assumption.
    + apply emitsOnly_forM_. intros [p1 p2] Hin.
      apply In_StrictlyUpper in Hin as [Hin1 Hin2].
      unfold doSameEvent_pairIden, randgen_Rndm. emitsOnly_steps.
      all: repeat match goal with
             | H : (_ =? _)%Z = true |- _ => apply Z.eqb_eq in H
             end.
      all: first [apply HPP; assumption | apply HMM; assumption].
Qed.

(** Every pair [processSameEvent] fills for a collision goes into a
    same-event container of an enabled channel and consists of two rows of
    that collision taken from the partitions of the channel: partition one
    and two for opposite signs, partition one twice for positive pairs,
    partition two twice for negative pairs.  It computes no covariance. *)
Theorem processSameEvent_fills_own_rows (col : Collision) (parts : list Particle)
    (s : nat) :
  Forall (fun e => sameFillOK env cfg col e = true)
         (trace (processSameEvent env cfg col parts s)).
Proof.
  revert s.
  change (emitsOnly (sameFillOK env cfg col) (processSameEvent env cfg col parts)).
  unfold processSameEvent, fillCollision.
  assert (Hrefl : forall z : Z, (z =? z)%Z = true) by apply Z.eqb_refl.
  apply emitsOnly_bind; [emitsOnly_steps; reflexivity | intros _].
  apply emitsOnly_bind; [| intros _; apply emitsOnly_bind; [| intros _]].
  all: apply emitsOnly_when_; intros Hchannel.
  all: apply doSameEvent_emitsOnly; try reflexivity; try discriminate.
  all: intros _ p1 p2 kT Hin1 Hin2.
  all: repeat match goal with
         | H : In _ (sliceByCached (partsOne _ _ _) _) |- _ =>
             apply In_slice_one in H as [? ?]
         | H : In _ (sliceByCached (partsTwo _ _ _) _) |- _ =>
             apply In_slice_two in H as [? ?]
         end.
  all: unfold sameFillOK, channelEnabled, fromPartitions; cbn [isSame holdsSame].
  all: rewrite Hchannel, !Hrefl.
  all: repeat match goal with H : _ = true |- _ => rewrite H; clear H end.
  all: reflexivity.
Qed.


Lemma doMixedEvent_emitsOnly (ok : Effect -> bool)
    (groupPartsOne groupPartsTwo parts : list Particle)
    (magFieldTesla : R) (multCol ContType : Z) :
  (forall p1 p2 kT, In p1 groupPartsOne -> In p2 groupPartsTwo ->
     (ContType = 1%Z ->
      ok (fill_mult_NumDen mixedEventMultCont p1 p2 mixed 2 multCol kT) = true)
     /\ (ContType = 2%Z ->
         ok (fill_mult_NumDen mixedEventMultContPP p1 p2 mixed 2 multCol kT) = true)
     /\ (ContType = 3%Z ->
         ok (fill_mult_NumDen mixedEventMultContMM p1 p2 mixed 2 multCol kT) = true)) ->
  emitsOnly ok (doMixedEvent env cfg groupPartsOne groupPartsTwo parts magFieldTesla
                  multCol ContType).
Proof.
  intros Hok. unfold doMixedEvent.
  apply emitsOnly_forM_. intros [p1 p2] Hin. apply In_Full in Hin as [Hin1 Hin2].
  unfold doMixedEvent_pair. emitsOnly_steps.
  all: repeat match goal with
         | H : (_ =? _)%Z = true |- _ => apply Z.eqb_eq in H
         end.
  all: apply Hok; assumption.
Qed.

Lemma processMixedEvent_pair_emitsOnly (parts : list Particle)
    (collision1 collision2 : Collision) :
  emitsOnly (mixedFillOK env cfg collision1 collision2)
            (processMixedEvent_pair env cfg parts (collision1, collision2)).
Proof.
  unfold processMixedEvent_pair.
  assert (Hrefl : forall z : Z, (z =? z)%Z = true) by apply Z.eqb_refl.
  apply emitsOnly_bind; [apply emitsOnly_emit; apply Hrefl | intros _].
  destruct (Rneqb (magField collision1) (magField collision2));
    [apply emitsOnly_ret |].
  apply emitsOnly_bind; [| intros _; apply emitsOnly_bind; [| intros _]].
  all: apply emitsOnly_when_; intros Hchannel.
  all: apply doMixedEvent_emitsOnly.
  all: intros p1 p2 kT Hin1 Hin2.
  all: repeat match goal with
         | H : In _ (sliceByCached (partsOne _ _ _) _) |- _ =>
             apply In_slice_one in H as [? ?]
         | H : In _ (sliceByCached (partsTwo _ _ _) _) |- _ =>
             apply In_slice_two in H as [? ?]
         end.
  all: repeat split; try discriminate; intros _.
  all: unfold mixedFillOK, channelEnabled, fromPartitions; cbn [isSame holdsSame negb].
  all: rewrite Hchannel, !Hrefl.
  all: repeat match goal with H : _ = true |- _ => rewrite H; clear H end.
  all: reflexivity.
Qed.

Lemma processMixedEvent_pair_skip (parts : list Particle)
    (collision1 collision2 : Collision) (s : nat) (e : Effect) :
  In e (trace (processMixedEvent_pair env cfg parts (collision1, collision2) s)) ->
  isNumDen e = true -> magField collision1 = magField collision2.
Proof.
  unfold processMixedEvent_pair. rewrite run_emit_then. cbn [trace].
  destruct (Rneqb (magField collision1) (magField collision2)) eqn:Hfield.
  - intros [<- | []]. discriminate.
  - intros _ _. apply Rneqb_false. exact Hfield.
Qed.

Lemma In_trace_forM_ {A} (l : list A) (body : A -> Eff unit) (s : nat) (e : Effect) :
  In e (trace (forM_ l body s)) -> exists x s', In x l /\ In e (trace (body x s')).
Proof.
  revert s. induction l as [| x l IH]; intros s.
  - intros [].
  - cbn [forM_]. rewrite run_bind.
    destruct (outcome (body x s)) as [[] | msg arg]; cbn [trace].
    + rewrite in_app_iff. intros [H | H].
      * exists x, s. split; [left; reflexivity | exact H].
      * destruct (IH _ H) as (y & s' & Hy & He).
        exists y, s'. split; [right; exact Hy | exact He].
    + intros H. exists x, s. split; [left; reflexivity | exact H].
Qed.

(** Every call [processMixedEvent] makes belongs to one of the collision
    pairs it loops over: it is the mixing-QA count of that pair, in the bin
    of its first collision, or a pair
    fill into a mixed-event container of an enabled channel, whose first
    particle is a row of the first collision and whose second particle is a
    row of the second, each from the partition of its slot; and a pair is
    only filled when the two collisions have the same magnetic field. *)
Theorem processMixedEvent_fills_across_pair (cols : list Collision)
    (parts : list Particle) (s : nat) (e : Effect) :
  In e (trace (processMixedEvent env cfg cols parts s)) ->
  exists collision1 collision2,
    In (collision1, collision2) (mixedEventPairs env cols)
    /\ mixedFillOK env cfg collision1 collision2 e = true
    /\ (isNumDen e = true -> magField collision1 = magField collision2).
Proof.
  unfold processMixedEvent. intros He.
  apply In_trace_forM_ in He as ([collision1 collision2] & s' & Hpair & He).
  exists collision1, collision2. split; [exact Hpair |]. split.
  - pose proof (processMixedEvent_pair_emitsOnly parts collision1 collision2 s') as Hall.
    exact (proj1 (List.Forall_forall _ _) Hall e He).
  - apply (processMixedEvent_pair_skip parts collision1 collision2 s' e He).
Qed.

Lemma processSameEvent_touches_enabled (col : Collision) (parts : list Particle) :
  emitsOnly (fun e => match containerOf e with
                      | Some c => channelEnabled cfg c
                      | None => true
                      end)
            (processSameEvent env cfg col parts).
Proof.
  unfold processSameEvent, fillCollision.
  apply emitsOnly_bind; [emitsOnly_steps; reflexivity | intros _].
  apply emitsOnly_bind; [| intros _; apply emitsOnly_bind; [| intros _]].
  all: apply emitsOnly_when_; intros Hchannel.
  all: apply doSameEvent_emitsOnly; try reflexivity; try discriminate.
  all: intros _ p1 p2 kT _ _; exact Hchannel.
Qed.

Lemma processMixedEvent_touches_enabled (cols : list Collision) (parts : list Particle) :
  emitsOnly (fun e => match containerOf e with
                      | Some c => channelEnabled cfg c
                      | None => true
                      end)
            (processMixedEvent env cfg cols parts).
Proof.
  unfold processMixedEvent. apply emitsOnly_forM_.
  intros [collision1 collision2] _. unfold processMixedEvent_pair.
  apply emitsOnly_bind; [apply emitsOnly_emit; reflexivity | intros _].
  destruct (Rneqb (magField collision1) (magField collision2));
    [apply emitsOnly_ret |].
  apply emitsOnly_bind; [| intros _; apply emitsOnly_bind; [| intros _]].
  all: apply emitsOnly_when_; intros Hchannel.
  all: apply doMixedEvent_emitsOnly.
  all: intros p1 p2 kT _ _.
  all: repeat split; try discriminate; intros _; exact Hchannel.
Qed.

End Provenance.

(** * Initialisation and the containers the task touches *)

Section Initialisation.

Variable env : Environment.
Variable cfg : Config.
Variable opts : InitOptions.

Lemma init_Mult_containers (c : Container) :
  initialised (init env cfg opts) c
  <-> cfgProcessKtMt3DCF opts = true /\ channelEnabled cfg c = true.
Proof.
  unfold initialised, init. cbn [initCalls]. split.
  - intros (registry & lmax & Hin).
    repeat (apply in_app_or in Hin; destruct Hin as [Hin | Hin]).
    all: destruct (cfgProcessKtMt3DCF opts); cbn [negb] in Hin.
    all: repeat match type of Hin with
           | In _ (if ?b then _ else _) => destruct b eqn:?
           end.
    all: cbn [In] in Hin.
    all: repeat match type of Hin with
           | _ \/ _ => destruct Hin as [Hin | Hin]
           end.
    all: try contradiction; try discriminate.
    all: inversion Hin; subst; split; [reflexivity | assumption].
  - intros [H3D Hchannel]. rewrite H3D. cbn [negb].
    destruct c; cbn [channelEnabled] in Hchannel; rewrite Hchannel;
      eexists _, _.
    all: repeat (apply in_or_app; first [left; cbn [In]; now auto | right]).
    all: cbn [In]; auto.
Qed.

(** [init] initialises the containers that the process functions fill,
    those binned in multiplicity and kT, only when [cfgProcessKtMt3DCF] is
    set, and then exactly those of the enabled channels; the close-pair
    rejection is initialised exactly when [ConfIsCPR] is set, the pair
    cleaner always. *)
Theorem init_initialises_containers (c : Container) :
  (initialised (init env cfg opts) c
   <-> cfgProcessKtMt3DCF opts = true /\ channelEnabled cfg c = true)
  /\ ((exists r1 r2 a b c' d e f,
         In (pairCloseRejection_init r1 r2 a b c' d e f) (initCalls (init env cfg opts)))
      <-> ConfIsCPR cfg = true)
  /\ In (pairCleaner_init qaRegistry) (initCalls (init env cfg opts)).
Proof.
  split; [apply init_Mult_containers | split].
  - unfold init. cbn [initCalls]. split.
    + intros (r1 & r2 & a & b & c' & d & e & f & Hin).
      repeat (apply in_app_or in Hin; destruct Hin as [Hin | Hin]).
      all: repeat match type of Hin with
             | In _ (if ?b then _ else _) => destruct b eqn:?
             end.
      all: cbn [In] in Hin.
      all: repeat match type of Hin with
             | _ \/ _ => destruct Hin as [Hin | Hin]
             end.
      all: try contradiction; try discriminate; reflexivity.
    + intros HCPR. rewrite HCPR. do 8 eexists.
      repeat (apply in_or_app; right). left. reflexivity.
  - unfold init. cbn [initCalls].
    do 4 (apply in_or_app; right). apply in_or_app. left. left. reflexivity.
Qed.

End Initialisation.

Section TouchedContainers.

Variable env : Environment.
Variable cfg : Config.
Variable opts : InitOptions.

Lemma covOfChannel_enabled (e : Effect) (c : Container) :
  In e (covOfChannel cfg) -> containerOf e = Some c -> channelEnabled cfg c = true.
Proof.
  unfold covOfChannel.
  destruct (cfgProcessMM cfg) eqn:HMM; [| destruct (cfgProcessPP cfg) eqn:HPP;
    [| destruct (cfgProcessPM cfg) eqn:HPM]].
  all: cbn [In]; intros H Hc.
  all: repeat match type of H with _ \/ _ => destruct H as [H | H] end.
  all: try contradiction.
  all: subst e; inversion Hc; subst; assumption.
Qed.

(** A container that a process function fills or evaluates has been
    initialised by [init] exactly when [cfgProcessKtMt3DCF] is set: with
    the default, false, every pair fill and every covariance computation
    addresses a container that [init] left alone. *)
Theorem touched_container_initialised_iff (col : Collision) (cols : list Collision)
    (parts : list Particle) (s : nat) (e : Effect) (c : Container) :
  In e (trace (processSameEvent env cfg col parts s))
  \/ In e (trace (processMixedEvent env cfg cols parts s))
  \/ In e (trace (processCov cfg col parts s)) ->
  containerOf e = Some c ->
  (initialised (init env cfg opts) c <-> cfgProcessKtMt3DCF opts = true).
Proof.
  intros Hin Hc.
  assert (Henabled : channelEnabled cfg c = true).
  { destruct Hin as [Hin | [Hin | Hin]].
    - pose proof (proj1 (List.Forall_forall _ _)
                    (processSameEvent_touches_enabled env cfg col parts s) e Hin) as H.
      cbv beta in H. rewrite Hc in H. exact H.
    - pose proof (proj1 (List.Forall_forall _ _)
                    (processMixedEvent_touches_enabled env cfg cols parts s) e Hin) as H.
      cbv beta in H. rewrite Hc in H. exact H.
    - rewrite processCov_run in Hin. cbn [trace] in Hin.
      apply (covOfChannel_enabled e c Hin Hc). }
  rewrite init_Mult_containers, Henabled. tauto.
Qed.

End TouchedContainers.

Lemma touched_container_initialised_iff_witness :
  initialised (init exampleEnv defaultConfig defaultInitOptions) sameEventMultContMM
  <-> false = true.
Proof.
  apply (touched_container_initialised_iff exampleEnv defaultConfig defaultInitOptions
           E1 [] [] 0%nat (fill_mult_kT_Cov sameEventMultContMM same 9)
           sameEventMultContMM).
  - right. right. rewrite processCov_run. left. reflexivity.
  - reflexivity.
Defined.

(** * The Monte Carlo process functions *)

Section MonteCarloProperties.

Variable env : Environment.
Variable cfg : Config.

Lemma processMixedEventMC_pair_run (pr : Collision * Collision) (s : nat) :
  processMixedEventMC_pair env pr s
  = MkRun [hMECollisionBins_fill
             (colBinning_getBin env (posZ (fst pr)) (multNtr (fst pr)))] s (Done tt).
Proof.
  destruct pr as [collision1 collision2]. unfold processMixedEventMC_pair.
  rewrite run_emit_then.
  destruct (Rneqb (magField collision1) (magField collision2)); reflexivity.
Qed.

(** The Monte Carlo process functions fill no pair container and compute
    no covariance.  [processSameEventMC] makes the two collision-QA calls
    and stops; [processMixedEventMC] counts in the mixing QA the first
    collision of every collision pair, whether or not the fields of the
    pair agree, and does nothing else. *)
Theorem MonteCarlo_fills_no_pairs (col : Collision) (cols : list Collision)
    (parts : list Particle) (s : nat) :
  processSameEventMC env cfg col parts s
  = MkRun [hSECollisionBins_fill (colBinning_getBin env (posZ col) (multNtr col));
           eventHisto_fillQA col] s (Done tt)
  /\ processMixedEventMC env cols parts s
     = MkRun (map (fun pr => hMECollisionBins_fill
                               (colBinning_getBin env (posZ (fst pr)) (multNtr (fst pr))))
                  (MixingPool.selfCombinations
                     (fun col => colBinning_getBin env (posZ col) (multNtr col))
                     5 (-1) cols))
             s (Done tt).
Proof.
  split; [reflexivity |].
  unfold processMixedEventMC.
  induction (MixingPool.selfCombinations _ 5 (-1) cols) as [| pr l IH].
  - reflexivity.
  - cbn [forM_ map]. rewrite run_bind, processMixedEventMC_pair_run.
    cbn [outcome trace gens]. rewrite IH. reflexivity.
Qed.

End MonteCarloProperties.

(** * Channels and partitions *)

Section Channels.

Variable env : Environment.
Variable cfg : Config.

(** The covariance is computed for one channel only.  When the negative
    channel is enabled, as it is by default, the containers of the positive
    and of the opposite-sign channel never see a covariance computation,
    from any process function, also when these channels are enabled and
    their containers are filled; likewise the positive channel shadows the
    opposite-sign one. *)
Theorem processCov_first_channel_only (col : Collision) (cols : list Collision)
    (parts : list Particle) (s : nat) (c : Container) :
  (cfgProcessMM cfg = true /\ c <> sameEventMultContMM /\ c <> mixedEventMultContMM)
  \/ (cfgProcessPP cfg = true /\ (c = sameEventMultCont \/ c = mixedEventMultCont)) ->
  calls (isCovOf c) (trace (processCov cfg col parts s)) = 0%nat
  /\ calls (isCovOf c) (trace (processSameEvent env cfg col parts s)) = 0%nat
  /\ calls (isCovOf c) (trace (processMixedEvent env cfg cols parts s)) = 0%nat.
Proof.
  intros Hshadow. split; [| split].
  - rewrite processCov_run. cbn [trace]. unfold covOfChannel.
    destruct Hshadow as [(HMM & Hc1 & Hc2) | (HPP & Hc)].
    + rewrite HMM. destruct c; try reflexivity; contradiction.
    + rewrite HPP. destruct (cfgProcessMM cfg); destruct Hc; subst c; reflexivity.
  - apply (calls_none _ _ (isCovOf_isCov c)).
    apply processSameEvent_no_covariance.
  - apply (calls_none _ _ (isCovOf_isCov c)).
    apply processMixedEvent_no_covariance.
Qed.

(** With different charges configured for the two particles, no track is
    in both partitions, so no candidate pair of the opposite-sign channel
    pairs a track with itself. *)
Theorem partitions_disjoint (parts : list Particle) (index : Z) (p1 p2 : Particle) :
  ConfChargePart1 cfg <> ConfChargePart2 cfg ->
  In (p1, p2) (CombinationsFullIndexPolicy
                 (sliceByCached (partsOne env cfg parts) index)
                 (sliceByCached (partsTwo env cfg parts) index)) ->
  p1 <> p2 /\ ~ In p1 (partsTwo env cfg parts) /\ ~ In p2 (partsOne env cfg parts).
Proof.
  intros Hcharge Hin. apply In_Full in Hin as [Hin1 Hin2].
  apply In_slice_one in Hin1 as [Hone _]. apply In_slice_two in Hin2 as [Htwo _].
  unfold isPartOne in Hone. unfold isPartTwo in Htwo.
  repeat (apply andb_true_iff in Hone; destruct Hone as [Hone ?]).
  repeat (apply andb_true_iff in Htwo; destruct Htwo as [Htwo ?]).
  repeat match goal with H : (_ =? _)%Z = true |- _ => apply Z.eqb_eq in H end.
  split; [| split].
  - intros ->. congruence.
  - rewrite partsTwo_filter, filter_In. intros [_ H']. unfold isPartTwo in H'.
    repeat (apply andb_true_iff in H'; destruct H' as [H' ?]).
    repeat match goal with H : (_ =? _)%Z = true |- _ => apply Z.eqb_eq in H end.
    congruence.
  - rewrite partsOne_filter, filter_In. intros [_ H']. unfold isPartOne in H'.
    repeat (apply andb_true_iff in H'; destruct H' as [H' ?]).
    repeat match goal with H : (_ =? _)%Z = true |- _ => apply Z.eqb_eq in H end.
    congruence.
Qed.

End Channels.

(** * Instances *)

Lemma In_Full_intro {A B} (setA : list A) (setB : list B) (a : A) (b : B) :
  In a setA -> In b setB -> In (a, b) (CombinationsFullIndexPolicy setA setB).
Proof.
  intros Ha Hb. unfold CombinationsFullIndexPolicy. apply in_flat_map.
  exists a. split; [exact Ha |]. apply in_map. exact Hb.
Qed.

Lemma pionTrack_in_slice_one :
  In pionTrack
     (sliceByCached (partsOne exampleEnv defaultConfig [pionTrack; negativeTrack]) 0).
Proof.
  unfold sliceByCached. rewrite partsOne_filter, !filter_In.
  repeat split; [left; reflexivity |].
  unfold isPartOne. simpl. Rcompare; reflexivity || lra.
Qed.

Lemma negativeTrack_in_slice_two :
  In negativeTrack
     (sliceByCached (partsTwo exampleEnv defaultConfig [pionTrack; negativeTrack]) 0).
Proof.
  unfold sliceByCached. rewrite partsTwo_filter, !filter_In.
  repeat split; [right; left; reflexivity |].
  unfold isPartTwo. simpl. Rcompare; reflexivity || lra.
Qed.

Lemma partitions_disjoint_witness :
  pionTrack <> negativeTrack
  /\ ~ In pionTrack (partsTwo exampleEnv defaultConfig [pionTrack; negativeTrack])
  /\ ~ In negativeTrack (partsOne exampleEnv defaultConfig [pionTrack; negativeTrack]).
Proof.
  apply (partitions_disjoint exampleEnv defaultConfig [pionTrack; negativeTrack] 0).
  - simpl. lia.
  - apply In_Full_intro;
      [exact pionTrack_in_slice_one | exact negativeTrack_in_slice_two].
Defined.

Lemma processCov_first_channel_only_witness :
  calls (isCovOf sameEventMultContPP) (trace (processCov defaultConfig E1 [] 0%nat)) = 0%nat
  /\ calls (isCovOf sameEventMultContPP)
       (trace (processSameEvent exampleEnv defaultConfig E1 [] 0%nat)) = 0%nat
  /\ calls (isCovOf sameEventMultContPP)
       (trace (processMixedEvent exampleEnv defaultConfig [E1; E2] [] 0%nat)) = 0%nat.
Proof.
  apply (processCov_first_channel_only exampleEnv defaultConfig E1 [E1; E2] [] 0%nat
           sameEventMultContPP).
  left. repeat split; discriminate.
Defined.


(** * The same-sign loop, fill by fill *)

Lemma filter_map_none {A} (sel : Effect -> bool) (f : A -> Effect) (l : list A) :
  (forall x, sel (f x) = false) -> List.filter sel (List.map f l) = [].
Proof.
  intros Hf. induction l as [| x l IH]; [reflexivity |].
  cbn [List.map List.filter]. rewrite Hf. exact IH.
Qed.

Lemma drawnFill_isNumDen (env : Environment) (cfg : Config) (c : Container)
    (multCol : Z) (rand : R) (pr : Particle * Particle) :
  isNumDen (drawnFill env cfg c multCol rand pr) = true.
Proof. unfold drawnFill. destruct (Rgtb rand 0.5); reflexivity. Qed.

Lemma drawnFills_filter (env : Environment) (cfg : Config) (c : Container)
    (multCol : Z) (passing : list (Particle * Particle)) (randgen : nat) :
  List.filter isNumDen (drawnFills env cfg c multCol randgen passing)
  = drawnFills env cfg c multCol randgen passing.
Proof.
  revert randgen. induction passing as [| pr passing IH]; intros randgen;
    [reflexivity |].
  cbn [drawnFills List.filter]. rewrite drawnFill_isNumDen, IH. reflexivity.
Qed.

Lemma drawnFills_length (env : Environment) (cfg : Config) (c : Container)
    (multCol : Z) (passing : list (Particle * Particle)) (randgen : nat) :
  length (drawnFills env cfg c multCol randgen passing) = length passing.
Proof.
  revert randgen. induction passing as [| pr passing IH]; intros randgen;
    [reflexivity |].
  cbn [drawnFills length]. rewrite IH. reflexivity.
Qed.

(** The k-th fill belongs to the k-th passing pair and uses the draw of the
    k-th generator constructed. *)
Lemma drawnFills_nth (env : Environment) (cfg : Config) (c : Container)
    (multCol : Z) (passing : list (Particle * Particle)) (randgen k : nat)
    (pr : Particle * Particle) :
  nth_error passing k = Some pr ->
  nth_error (drawnFills env cfg c multCol randgen passing) k
  = Some (drawnFill env cfg c multCol (Rndm env (randgen + k)) pr).
Proof.
  revert randgen k. induction passing as [| pr' passing IH]; intros randgen k Hk.
  - destruct k; discriminate.
  - destruct k as [| k]; cbn [nth_error drawnFills] in *.
    + injection Hk as ->. rewrite Nat.add_0_r. reflexivity.
    + rewrite (IH (S randgen) k Hk), Nat.add_succ_r. reflexivity.
Qed.

Section SameSignFills.
Import Dispatch.

Variable env : Environment.
Variable cfg : Config.

(** A QA loop of [doSameEvent] makes the QA call of the tracks its gate
    admits, in the order of the group. *)
Lemma QA_loop_run (particle_number : Z) (fillQA : Particle -> Effect)
    (group : list Particle) (s : nat) :
  particle_number = 1%Z \/ particle_number = 2%Z ->
  forM_ group (fun part =>
     ok ← gate cfg particle_number part;
     if negb ok then mret tt else emit (fillQA part)) s
  = MkRun (List.map fillQA (List.filter (admits cfg particle_number) group)) s (Done tt).
Proof.
  intros Hrole. induction group as [| part group IH]; [reflexivity |].
  cbn [forM_ List.filter]. rewrite run_bind.
  rewrite (bind_gate _ _ _ _ _ _ (gate_admits cfg particle_number part s Hrole)).
  destruct (admits cfg particle_number part); cbn [negb].
  - change (emit (fillQA part) s) with (MkRun [fillQA part] s (Done tt)).
    cbn [outcome trace gens]. rewrite IH. reflexivity.
  - rewrite run_ret. cbn [outcome trace gens]. rewrite IH. reflexivity.
Qed.

(** The body of the same-sign loop: a pair that passes constructs one
    generator and makes one fill, ordered by its draw; any other pair does
    nothing. *)
Lemma doSameEvent_pairIden_run (parts : list Particle) (magFieldTesla : R)
    (multCol ContType : Z) (pr : Particle * Particle) (s : nat) :
  ContType = 2%Z \/ ContType = 3%Z ->
  doSameEvent_pairIden env cfg parts magFieldTesla multCol ContType pr s
  = if passesIden env cfg parts magFieldTesla pr
    then MkRun [drawnFill env cfg
                  (if (ContType =? 2)%Z then sameEventMultContPP else sameEventMultContMM)
                  multCol (Rndm env s) pr] (S s) (Done tt)
    else MkRun [] s (Done tt).
Proof.
  intros HCont. destruct pr as [p1 p2].
  unfold passesIden, doSameEvent_pairIden, drawnFill. cbn [fst snd].
  rewrite (bind_gate _ _ _ _ _ _ (gate_admits cfg 2 p1 s (or_intror eq_refl))).
  destruct (admits cfg 2 p1); cbn [negb andb]; [| reflexivity].
  rewrite (bind_gate _ _ _ _ _ _ (gate_admits cfg 2 p2 s (or_intror eq_refl))).
  destruct (admits cfg 2 p2); cbn [negb andb]; [| reflexivity].
  destruct (ConfIsCPR cfg && isClosePair env p1 p2 parts magFieldTesla same);
    cbn [negb andb]; [reflexivity |].
  destruct (isCleanPair env p1 p2 parts); cbn [negb]; [| reflexivity].
  rewrite run_bind. cbn [new_TRandom2 outcome trace gens app].
  destruct HCont as [-> | ->]; cbn [Z.eqb Pos.eqb].
  all: rewrite run_bind.
  all: change (randgen_Rndm (Rndm env) s (S s)) with (MkRun [] (S s) (Done (Rndm env s))).
  all: cbn [outcome trace gens app].
  all: unfold Rgtb, Rleb, Rltb.
  all: destruct (Rlt_dec 0.5 (Rndm env s)); [reflexivity |].
  all: destruct (Rle_dec (Rndm env s) 0.5); [reflexivity | lra].
Qed.

(** The same-sign loop over a list of pairs. *)
Lemma same_sign_loop_run (parts : list Particle) (magFieldTesla : R)
    (multCol ContType : Z) (pairs : list (Particle * Particle)) (s : nat) :
  ContType = 2%Z \/ ContType = 3%Z ->
  forM_ pairs (doSameEvent_pairIden env cfg parts magFieldTesla multCol ContType) s
  = MkRun (drawnFills env cfg
             (if (ContType =? 2)%Z then sameEventMultContPP else sameEventMultContMM)
             multCol s (List.filter (passesIden env cfg parts magFieldTesla) pairs))
          (length (List.filter (passesIden env cfg parts magFieldTesla) pairs) + s)
          (Done tt).
Proof.
  intros HCont. revert s. induction pairs as [| pr pairs IH]; intros s;
    [reflexivity |].
  cbn [forM_ List.filter]. rewrite run_bind.
  rewrite (doSameEvent_pairIden_run parts magFieldTesla multCol ContType pr s HCont).
  destruct (passesIden env cfg parts magFieldTesla pr);
    cbn [outcome trace gens]; rewrite IH; cbn [outcome trace gens drawnFills length app].
  - rewrite Nat.add_succ_r. reflexivity.
  - reflexivity.
Qed.

(** [doSameEvent] on a same-sign channel: the QA calls of the channel's
    role, then the fills of the passing pairs of the strictly upper
    triangle over the first group. *)
Lemma doSameEvent_same_sign_run (groupPartsOne groupPartsTwo parts : list Particle)
    (magFieldTesla : R) (multCol ContType : Z) (fillQA : bool) (s : nat) :
  ContType = 2%Z \/ ContType = 3%Z ->
  let c := if (ContType =? 2)%Z then sameEventMultContPP else sameEventMultContMM in
  let passing := List.filter (passesIden env cfg parts magFieldTesla)
                   (CombinationsStrictlyUpperIndexPolicy groupPartsOne groupPartsOne) in
  let qaOne := if (ContType =? 2)%Z && fillQA
               then List.map trackHistoPartOne_fillQA
                      (List.filter (admits cfg 1) groupPartsOne)
               else [] in
  let qaTwo := if (ContType =? 3)%Z && fillQA
               then List.map trackHistoPartTwo_fillQA
                      (List.filter (admits cfg 2) groupPartsTwo)
               else [] in
  doSameEvent env cfg groupPartsOne groupPartsTwo parts magFieldTesla
    multCol ContType fillQA s
  = MkRun (qaOne ++ qaTwo ++ drawnFills env cfg c multCol s passing)
          (length passing + s) (Done tt).
Proof.
  intros HCont c passing qaOne qaTwo. unfold doSameEvent.
  assert (Hloop : (ContType =? 1)%Z = false) by (destruct HCont as [-> | ->]; reflexivity).
  rewrite Hloop. cbn [orb]. cbv iota.
  rewrite run_bind.
  assert (HOne : when_ ((ContType =? 2)%Z && fillQA)
                   (forM_ groupPartsOne (fun part =>
                      ok ← gate cfg 1 part;
                      if negb ok then mret tt else emit (trackHistoPartOne_fillQA part))) s
                 = MkRun qaOne s (Done tt)).
  { subst qaOne. unfold when_. destruct ((ContType =? 2)%Z && fillQA); [| reflexivity].
    apply (QA_loop_run 1 trackHistoPartOne_fillQA). left. reflexivity. }
  rewrite HOne. cbn [outcome trace gens].
  rewrite run_bind.
  assert (HTwo : when_ ((ContType =? 3)%Z && fillQA)
                   (forM_ groupPartsTwo (fun part =>
                      ok ← gate cfg 2 part;
                      if negb ok then mret tt else emit (trackHistoPartTwo_fillQA part))) s
                 = MkRun qaTwo s (Done tt)).
  { subst qaTwo. unfold when_. destruct ((ContType =? 3)%Z && fillQA); [| reflexivity].
    apply (QA_loop_run 2 trackHistoPartTwo_fillQA). right. reflexivity. }
  rewrite HTwo. cbn [outcome trace gens].
  rewrite (same_sign_loop_run parts magFieldTesla multCol ContType _ s HCont).
  reflexivity.
Qed.

(** C6. In the same-sign loop of [doSameEvent] (channels ++ and --) every
    pair of the strictly upper triangle that passes the PID gates, the
    close-pair rejection and the pair cleaning is filled exactly once, and
    no other pair is filled: the fills of the run are, in order, those of
    the passing pairs, as many as there are.  The k-th passing pair (p1, p2)
    is filled as (p1, p2) when the draw of its generator is above 0.5 and
    as (p2, p1) when it is not; the two cases exclude each other and leave
    no third. *)
Theorem doSameEvent_same_sign_fills (groupPartsOne groupPartsTwo parts : list Particle)
    (magFieldTesla : R) (multCol ContType : Z) (fillQA : bool) (s : nat) :
  ContType = 2%Z \/ ContType = 3%Z ->
  let r := doSameEvent env cfg groupPartsOne groupPartsTwo parts magFieldTesla
             multCol ContType fillQA s in
  let c := if (ContType =? 2)%Z then sameEventMultContPP else sameEventMultContMM in
  let passing := List.filter (passesIden env cfg parts magFieldTesla)
                   (CombinationsStrictlyUpperIndexPolicy groupPartsOne groupPartsOne) in
  let fills := List.filter isNumDen (trace r) in
  outcome r = Done tt
  /\ length fills = length passing
  /\ forall (k : nat) (p1 p2 : Particle),
       nth_error passing k = Some (p1, p2) ->
       let rand := Rndm env (s + k) in
       let kT := getkT env p1 (mass1 env cfg) p2 (mass2 env cfg) in
       (rand > 0.5 ->
        nth_error fills k = Some (fill_mult_NumDen c p1 p2 same 2 multCol kT))
       /\ (rand <= 0.5 ->
           nth_error fills k = Some (fill_mult_NumDen c p2 p1 same 2 multCol kT))
       /\ (rand > 0.5 \/ rand <= 0.5)
       /\ ~ (rand > 0.5 /\ rand <= 0.5).
Proof.
  intros HCont r c passing fills.
  assert (Hfills : fills = drawnFills env cfg c multCol s passing).
  { subst fills r.
    rewrite (doSameEvent_same_sign_run groupPartsOne groupPartsTwo parts
               magFieldTesla multCol ContType fillQA s HCont).
    cbn [trace]. rewrite !List.filter_app.
    assert (HOne : forall l, List.filter isNumDen
                     (if (ContType =? 2)%Z && fillQA
                      then List.map trackHistoPartOne_fillQA l else []) = []).
    { intros l. destruct ((ContType =? 2)%Z && fillQA); [| reflexivity].
      apply filter_map_none. reflexivity. }
    assert (HTwo : forall l, List.filter isNumDen
                     (if (ContType =? 3)%Z && fillQA
                      then List.map trackHistoPartTwo_fillQA l else []) = []).
    { intros l. destruct ((ContType =? 3)%Z && fillQA); [| reflexivity].
      apply filter_map_none. reflexivity. }
    rewrite HOne, HTwo. cbn [app]. apply drawnFills_filter. }
  split; [| split].
  - subst r.
    rewrite (doSameEvent_same_sign_run groupPartsOne groupPartsTwo parts
               magFieldTesla multCol ContType fillQA s HCont).
    reflexivity.
  - rewrite Hfills. apply drawnFills_length.
  - intros k p1 p2 Hk rand kT.
    rewrite Hfills, (drawnFills_nth env cfg c multCol passing s k (p1, p2) Hk).
    fold rand. unfold drawnFill, Rgtb, Rltb. cbn [fst snd]. fold kT.
    destruct (Rlt_dec 0.5 rand) as [Hgt | Hle].
    + split; [reflexivity |]. split; [intros; lra |]. split; [left; lra | lra].
    + split; [intros; lra |]. split; [reflexivity |]. split; [right; lra | lra].
Qed.

End SameSignFills.

Lemma positivePion_admits (role index collision : Z) :
  role = 1%Z \/ role = 2%Z ->
  admits defaultConfig role (positivePion index collision) = true.
Proof.
  intros [-> | ->]; unfold admits, Dispatch.gate, Dispatch.IsParticleNSigma; simpl.
  all: Rverdict.
Qed.

Lemma doSameEvent_same_sign_fills_witness :
  let r := doSameEvent exampleEnv defaultConfig
             [positivePion 10 1; positivePion 11 1] [] twoCollisionTracks
             0.5 10 2 true 0%nat in
  outcome r = Done tt
  /\ nth_error (List.filter isNumDen (trace r)) 0
     = Some (fill_mult_NumDen sameEventMultContPP (positivePion 11 1) (positivePion 10 1)
               same 2 10 0.2).
Proof.
  destruct (doSameEvent_same_sign_fills exampleEnv defaultConfig
              [positivePion 10 1; positivePion 11 1] [] twoCollisionTracks
              0.5 10 2 true 0%nat (or_introl eq_refl))
    as (Hdone & _ & Hnth).
  destruct (Hnth 0%nat (positivePion 10 1) (positivePion 11 1)) as (_ & Hle & _).
  - change (CombinationsStrictlyUpperIndexPolicy
              [positivePion 10 1; positivePion 11 1]
              [positivePion 10 1; positivePion 11 1])
      with [(positivePion 10 1, positivePion 11 1)].
    cbn [List.filter]. unfold passesIden. cbn [fst snd].
    rewrite !positivePion_admits by (right; reflexivity). reflexivity.
  - split; [exact Hdone |]. apply Hle. simpl. lra.
Defined.

(** * A data frame of two collisions *)

Section MixedPair.
Import Dispatch.

Variable env : Environment.
Variable cfg : Config.

(** The body of the pair loop of [doMixedEvent], run on a pair that passes
    its gates in a channel 1, 2 or 3: one fill into the mixed-event
    container of the channel. *)
Lemma doMixedEvent_pair_run (parts : list Particle) (magFieldTesla : R)
    (multCol ContType : Z) (p1 p2 : Particle) (s : nat) :
  ContType = 1%Z \/ ContType = 2%Z \/ ContType = 3%Z ->
  passesMixed env cfg parts magFieldTesla (p1, p2) = true ->
  let c := if (ContType =? 1)%Z then mixedEventMultCont
           else if (ContType =? 2)%Z then mixedEventMultContPP
           else mixedEventMultContMM in
  doMixedEvent_pair env cfg parts magFieldTesla multCol ContType (p1, p2) s
  = MkRun [fill_mult_NumDen c p1 p2 mixed 2 multCol
             (getkT env p1 (mass1 env cfg) p2 (mass2 env cfg))] s (Done tt).
Proof.
  intros HCont Hpass c. subst c. unfold passesMixed in Hpass. cbn [fst snd] in Hpass.
  apply andb_prop in Hpass as [Hpass Hclose].
  apply andb_prop in Hpass as [Hok1 Hok2].
  apply negb_true_iff in Hclose.
  unfold doMixedEvent_pair.
  rewrite (bind_gate _ _ _ _ _ _ (gate_admits cfg 2 p1 s (or_intror eq_refl))), Hok1.
  cbn [negb].
  rewrite (bind_gate _ _ _ _ _ _ (gate_admits cfg 2 p2 s (or_intror eq_refl))), Hok2.
  cbn [negb]. rewrite Hclose.
  destruct HCont as [-> | [-> | ->]]; reflexivity.
Qed.

(** The trace of a pass over a data frame: the same-event processing of all
    its collisions, then the covariance calls of [processCov] for each of
    its collisions, then the mixed-event processing. *)
Lemma runDataFrame_trace (allCols : list Collision) (allParts : list Particle)
    (s : nat) :
  let cols := List.filter (collV0Mfilter cfg) allCols in
  let parts := List.filter (trackAdditionalfilter cfg) allParts in
  let grouped := fun col => sliceByCached parts (globalIndex col) in
  let sameEvents :=
    when_ (doprocessSameEvent cfg)
      (forM_ cols (fun col => processSameEvent env cfg col (grouped col))) in
  let mixedEvents :=
    when_ (doprocessMixedEvent cfg) (processMixedEvent env cfg cols parts) in
  trace (runDataFrame env cfg allCols allParts s)
  = trace (sameEvents s)
    ++ (if doprocessCov cfg
        then concat (List.map (fun col => trace (processCov cfg col (grouped col) 0%nat)) cols)
        else [])
    ++ trace (mixedEvents (gens (sameEvents s))).
Proof.
  intros cols parts grouped sameEvents mixedEvents.
  change (runDataFrame env cfg allCols allParts)
    with (sameEvents ;;
          (when_ (doprocessCov cfg)
             (forM_ cols (fun col => processCov cfg col (grouped col))) ;;
           mixedEvents)).
  assert (Hsame : avoids isCov sameEvents).
  { subst sameEvents. avoids_steps_with ltac:(apply processSameEvent_no_covariance). }
  rewrite run_bind. destruct (Hsame s) as [_ Hfatal].
  destruct (outcome (sameEvents s)) as [[] | msg arg]; [| discriminate].
  cbn [trace]. f_equal.
  rewrite run_bind.
  assert (Hcov : concat (List.map (fun col => trace (processCov cfg col (grouped col) 0%nat)) cols)
                 = concat (List.map (fun _ => covOfChannel cfg) cols)).
  { f_equal. apply List.map_ext. intros col. rewrite processCov_run. reflexivity. }
  rewrite Hcov.
  destruct (doprocessCov cfg); cbn [when_].
  - rewrite (forM_processCov_run cols grouped (processCov cfg) (covOfChannel cfg))
      by (intros; apply processCov_run).
    reflexivity.
  - rewrite run_ret. reflexivity.
Qed.

End MixedPair.

Lemma positivePion_isPartOne (index collision : Z) :
  isPartOne exampleEnv defaultConfig (positivePion index collision) = true.
Proof. unfold isPartOne. simpl. Rcompare; reflexivity || lra. Qed.

Lemma positivePion_isPartTwo (index collision : Z) :
  isPartTwo exampleEnv defaultConfig (positivePion index collision) = false.
Proof. reflexivity. Qed.

Lemma positivePion_trackAdditionalfilter (index collision : Z) :
  trackAdditionalfilter defaultConfig (positivePion index collision) = true.
Proof.
  unfold trackAdditionalfilter. simpl. unfold Rabs.
  destruct (Rcase_abs 0.1); [lra |]. Rcompare; reflexivity || lra.
Qed.

Lemma mixedEventPairs_E1_E2 : mixedEventPairs exampleEnv [E1; E2] = [(E2, E1)].
Proof.
  unfold mixedEventPairs.
  rewrite (selfCombinations_one_bin _ 10 (-1) 5 [E1; E2]);
    [reflexivity | lia | repeat constructor].
Qed.

(** The mixed-event processing of two collisions of one bin and one field,
    each with a positive pion: the second collision is mixed with the
    first, its bin is counted and the pair of their pions is filled into
    the ++ container. *)
Lemma processMixedEvent_example_run (s : nat) :
  processMixedEvent exampleEnv defaultConfig [E1; E2] twoCollisionTracks s
  = MkRun [hMECollisionBins_fill 10;
           fill_mult_NumDen mixedEventMultContPP (positivePion 20 2) (positivePion 10 1)
             mixed 2 10 0.2] s (Done tt).
Proof.
  unfold processMixedEvent. rewrite mixedEventPairs_E1_E2. cbn [forM_].
  unfold processMixedEvent_pair.
  assert (Hfield : Rneqb (magField E2) (magField E1) = false).
  { unfold Rneqb. destruct (Req_dec_T (magField E2) (magField E1)) as [_ | Hne];
      [reflexivity | exfalso; apply Hne; reflexivity]. }
  rewrite Hfield.
  assert (Hone : partsOne exampleEnv defaultConfig twoCollisionTracks = twoCollisionTracks).
  { rewrite partsOne_filter. unfold twoCollisionTracks. cbn [List.filter].
    rewrite !positivePion_isPartOne. reflexivity. }
  assert (Htwo : partsTwo exampleEnv defaultConfig twoCollisionTracks = []).
  { reflexivity. }
  rewrite Hone, Htwo.
  change (sliceByCached twoCollisionTracks (globalIndex E2)) with [positivePion 20 2].
  change (sliceByCached twoCollisionTracks (globalIndex E1)) with [positivePion 10 1].
  change (sliceByCached [] (globalIndex E2)) with (@nil Particle).
  change (cfgProcessPM defaultConfig) with false.
  change (cfgProcessPP defaultConfig) with true.
  change (cfgProcessMM defaultConfig) with true.
  cbn [when_]. unfold doMixedEvent.
  change (CombinationsFullIndexPolicy [positivePion 20 2] [positivePion 10 1])
    with [(positivePion 20 2, positivePion 10 1)].
  change (CombinationsFullIndexPolicy [] (sliceByCached [] (globalIndex E1)))
    with (@nil (Particle * Particle)).
  cbn [forM_].
  rewrite !run_bind.
  rewrite (doMixedEvent_pair_run exampleEnv defaultConfig twoCollisionTracks
             (magField E2) (multNtr E2) 2 (positivePion 20 2) (positivePion 10 1));
    [reflexivity | right; left; reflexivity |].
  unfold passesMixed. cbn [fst snd].
  rewrite !positivePion_admits by (right; reflexivity). reflexivity.
Qed.

Lemma processMixedEvent_fills_across_pair_witness :
  exists collision1 collision2,
    In (collision1, collision2) (mixedEventPairs exampleEnv [E1; E2])
    /\ mixedFillOK exampleEnv defaultConfig collision1 collision2
         (fill_mult_NumDen mixedEventMultContPP (positivePion 20 2) (positivePion 10 1)
            mixed 2 10 0.2) = true
    /\ magField collision1 = magField collision2.
Proof.
  destruct (processMixedEvent_fills_across_pair exampleEnv defaultConfig [E1; E2]
              twoCollisionTracks 0%nat
              (fill_mult_NumDen mixedEventMultContPP (positivePion 20 2)
                 (positivePion 10 1) mixed 2 10 0.2))
    as (collision1 & collision2 & Hpair & Hfill & Hfield).
  - rewrite processMixedEvent_example_run. right. left. reflexivity.
  - exists collision1, collision2.
    split; [exact Hpair |]. split; [exact Hfill |]. apply Hfield. reflexivity.
Defined.

(** * When the covariance is computed *)

(** [int] arithmetic agrees with the integers while the result fits. *)
Lemma int_wrap_small (z : Z) :
  (-2147483648 <= z < 2147483648)%Z -> int_wrap z = z.
Proof.
  intros Hz. unfold int_wrap. rewrite Z.mod_small by lia. lia.
Qed.

Lemma JMax_exact (LMax : Z) :
  (0 <= LMax <= 46339)%Z ->
  int_mul (int_add LMax 1) (int_add LMax 1) = ((LMax + 1) * (LMax + 1))%Z.
Proof.
  intros HL. unfold int_mul, int_add.
  rewrite (int_wrap_small (LMax + 1)) by lia.
  apply int_wrap_small. nia.
Qed.

(** C4 as the spec states it fails on the code, twice over.  In one pass
    over a data frame of two collisions, each with a positive pion, the
    covariance of the same-event container is computed twice, once for
    every collision, not once for the pass; and it is computed before the
    mixed-event processing of the pass has filled the pair of the two
    pions, not after all fills are complete. *)
Lemma covariance_per_collision_before_mixing :
  let t := trace (runDataFrame exampleEnv defaultConfig [E1; E2]
                    twoCollisionTracks 0%nat) in
  let cov := fill_mult_kT_Cov sameEventMultContMM same 9 in
  let mixedFill := fill_mult_NumDen mixedEventMultContPP
                     (positivePion 20 2) (positivePion 10 1) mixed 2 10 0.2 in
  calls (isCovOf sameEventMultContMM) t = 2%nat
  /\ calls (isCovOf mixedEventMultContMM) t = 2%nat
  /\ exists before after, t = before ++ cov :: after /\ In mixedFill after.
Proof.
  intros t cov mixedFill.
  assert (Hcols : List.filter (collV0Mfilter defaultConfig) [E1; E2] = [E1; E2]).
  { cbn [List.filter]. unfold E1, E2. rewrite !collV0Mfilter_collisionOf. reflexivity. }
  assert (Hparts : List.filter (trackAdditionalfilter defaultConfig) twoCollisionTracks
                   = twoCollisionTracks).
  { unfold twoCollisionTracks. cbn [List.filter].
    rewrite !positivePion_trackAdditionalfilter. reflexivity. }
  split; [| split].
  - subst t. rewrite runDataFrame_cov_calls by apply isCovOf_isCov.
    rewrite Hcols. reflexivity.
  - subst t. rewrite runDataFrame_cov_calls by apply isCovOf_isCov.
    rewrite Hcols. reflexivity.
  - subst t. rewrite runDataFrame_trace, Hcols, Hparts.
    change (doprocessCov defaultConfig) with true.
    change (doprocessMixedEvent defaultConfig) with true.
    cbn [when_ List.map concat]. rewrite !processCov_run, processMixedEvent_example_run.
    cbn [trace].
    eexists _, _. split.
    + change (covOfChannel defaultConfig)
        with [cov; fill_mult_kT_Cov mixedEventMultContMM mixed 9].
      cbn [app]. reflexivity.
    + subst mixedFill. do 4 right. left. reflexivity.
Qed.

Section CovarianceSchedule.

Variable env : Environment.
Variable cfg : Config.

(** C4, amended. [processCov] is a process function of its own.  One
    invocation computes the covariance of the same-event container and then
    of the mixed-event container of the first enabled channel in the order
    MM, PP, PM, and of no container when no channel is enabled, over
    JMax = (ConfLMax + 1) * (ConfLMax + 1) moments as [int] arithmetic
    gives it, which is (ConfLMax + 1)^2 while that fits.  The same-event
    and mixed-event processing, pair loops included, never compute it.  In
    a pass over a data frame it is invoked once for every collision that
    passes the collision filter, after the same-event processing of all
    collisions of the frame and before the mixed-event processing of the
    frame, so every container sees as many covariance computations as there
    are such collisions, all of them ahead of the mixed-event fills of the
    pass. *)
Theorem processCov_per_collision_before_mixing
    (allCols cols' : list Collision) (allParts parts' : list Particle)
    (col : Collision) (s : nat) :
  let JMax := int_mul (int_add (ConfLMax cfg) 1) (int_add (ConfLMax cfg) 1) in
  let covOf := fun sameCont mixedCont =>
                 [fill_mult_kT_Cov sameCont same JMax;
                  fill_mult_kT_Cov mixedCont mixed JMax] in
  let cols := List.filter (collV0Mfilter cfg) allCols in
  let parts := List.filter (trackAdditionalfilter cfg) allParts in
  let grouped := fun col => sliceByCached parts (globalIndex col) in
  let sameEvents :=
    when_ (doprocessSameEvent cfg)
      (forM_ cols (fun col => processSameEvent env cfg col (grouped col))) in
  let mixedEvents :=
    when_ (doprocessMixedEvent cfg) (processMixedEvent env cfg cols parts) in
  processCov cfg col parts' s
  = MkRun (if cfgProcessMM cfg then covOf sameEventMultContMM mixedEventMultContMM
           else if cfgProcessPP cfg then covOf sameEventMultContPP mixedEventMultContPP
           else if cfgProcessPM cfg then covOf sameEventMultCont mixedEventMultCont
           else []) s (Done tt)
  /\ ((0 <= ConfLMax cfg <= 46339)%Z ->
      JMax = ((ConfLMax cfg + 1) * (ConfLMax cfg + 1))%Z)
  /\ calls isCov (trace (processSameEvent env cfg col parts' s)) = 0%nat
  /\ calls isCov (trace (processMixedEvent env cfg cols' parts' s)) = 0%nat
  /\ trace (runDataFrame env cfg allCols allParts s)
     = trace (sameEvents s)
       ++ (if doprocessCov cfg
           then concat (List.map (fun col => trace (processCov cfg col (grouped col) 0%nat))
                          cols)
           else [])
       ++ trace (mixedEvents (gens (sameEvents s)))
  /\ calls isCov (trace (sameEvents s)) = 0%nat
  /\ calls isCov (trace (mixedEvents (gens (sameEvents s)))) = 0%nat
  /\ (doprocessCov cfg = true ->
      forall c,
        calls (isCovOf c) (trace (runDataFrame env cfg allCols allParts s))
        = (length cols * calls (isCovOf c) (trace (processCov cfg col parts' s)))%nat).
Proof.
  intros JMax covOf cols parts grouped sameEvents mixedEvents.
  split.
  { unfold processCov. subst covOf JMax. cbv beta.
    destruct (cfgProcessMM cfg); [reflexivity |].
    destruct (cfgProcessPP cfg); [reflexivity |].
    destruct (cfgProcessPM cfg); reflexivity. }
  split; [apply JMax_exact |].
  split; [apply processSameEvent_no_covariance |].
  split; [apply processMixedEvent_no_covariance |].
  split; [apply runDataFrame_trace |].
  split.
  { assert (Hsame : avoids isCov sameEvents).
    { subst sameEvents.
      avoids_steps_with ltac:(apply processSameEvent_no_covariance). }
    apply Hsame. }
  split.
  { assert (Hmixed : avoids isCov mixedEvents).
    { subst mixedEvents.
      avoids_steps_with ltac:(apply processMixedEvent_no_covariance). }
    apply Hmixed. }
  intros Hcov c. rewrite runDataFrame_cov_calls by apply isCovOf_isCov.
  rewrite Hcov, processCov_run. reflexivity.
Qed.

End CovarianceSchedule.

Lemma processCov_per_collision_before_mixing_witness :
  processCov defaultConfig E1 twoCollisionTracks 0%nat
  = MkRun [fill_mult_kT_Cov sameEventMultContMM same 9;
           fill_mult_kT_Cov mixedEventMultContMM mixed 9] 0%nat (Done tt)
  /\ int_mul (int_add (ConfLMax defaultConfig) 1) (int_add (ConfLMax defaultConfig) 1)
     = ((ConfLMax defaultConfig + 1) * (ConfLMax defaultConfig + 1))%Z
  /\ calls (isCovOf sameEventMultContMM)
       (trace (runDataFrame exampleEnv defaultConfig [E1; E2] twoCollisionTracks 0%nat))
     = 2%nat.
Proof.
  destruct (processCov_per_collision_before_mixing exampleEnv defaultConfig
              [E1; E2] [E1; E2] twoCollisionTracks twoCollisionTracks E1 0%nat)
    as (Hrun & HJMax & _ & _ & _ & _ & _ & Hframe).
  split; [exact Hrun |].
  split; [apply HJMax; simpl; lia |].
  rewrite (Hframe eq_refl). cbn [List.filter]. unfold E1, E2.
  rewrite !collV0Mfilter_collisionOf. reflexivity.
Defined.
